(** * A shallow embedding of the worker-pool supervisor (src/main.cpp)

    The program keeps three pieces of process-wide state: the shutdown flag
    [programFinished], the list of thread handles [runningThreads] and the
    map [threadsData] from thread id to [ThreadData].  It is run by the
    console (the main thread), the launcher thread and the workers.

    - Every region guarded by a [std::lock_guard], and every read of the
      atomic flag, is one atomic step; a line written to [std::cout]
      is appended as a whole.
    - The other threads are a schedule, a list of events that says which
      thread takes its next step.  A blocking [join] runs a schedule and
      returns when the joined thread has then finished.
    - Thread ids are given by the operating system: any id that no started
      and unjoined thread has, other than [0], the id of no thread.  An id
      may be given again once its thread has been joined.
    - Time is not modelled: [sleep_for] is a step like any other.
    - [int64_t] values are integers in range; [++] at the maximum, which
      is undefined in C++, wraps in the model.
    - An exception that nothing catches ends the process.
    - After [main] returns, or after [exit], the objects of static storage
      duration are destroyed, [runningThreads] among them: the destructor
      of a [std::thread] that is still joinable calls [std::terminate].
    - Data races are not modelled.  [killThread] reads
      [runningThreads.end()] outside [threadPoolMutex] (lines 126 and
      133); the model takes these reads as part of the neighbouring
      steps and says nothing about their racing with an [emplace_back]
      of the launcher. *)

From Stdlib Require Import ZArith Ascii String List Bool Lia.
From stdpp Require Import base option list gmap.

Local Open Scope string_scope.
Local Open Scope list_scope.
Local Open Scope Z_scope.

(** ** Machine integers *)

Definition INT_MIN : Z := - 2 ^ 31.
Definition INT_MAX : Z := 2 ^ 31 - 1.
Definition INT64_MIN : Z := - 2 ^ 63.
Definition INT64_MAX : Z := 2 ^ 63 - 1.
Definition SIZE_MOD : Z := 2 ^ 64.

Definition in_int (z : Z) : bool := (INT_MIN <=? z) && (z <=? INT_MAX).
Definition in_int64 (z : Z) : bool := (INT64_MIN <=? z) && (z <=? INT64_MAX).

(** Two's complement reduction of a mathematical integer to [int64_t]. *)
Definition wrap64 (z : Z) : Z := (z + 2 ^ 63) mod 2 ^ 64 - 2 ^ 63.

(** [++threadData.value] on an [int64_t]. *)
Definition incr64 (v : Z) : Z := wrap64 (v + 1).

(** The conversion [size_t id = <int>]: reduction modulo [2^64]. *)
Definition to_size_t (z : Z) : Z := z mod SIZE_MOD.

(** ** [std::stoi]

    [std::stoi(str)] calls [strtol(str, &end, 10)]: leading white space is
    skipped, one optional sign is read, then the longest run of decimal
    digits; whatever follows is ignored.  No digit at all raises
    [std::invalid_argument]; a value that does not fit [int] raises
    [std::out_of_range]. *)

Inductive exn : Type :=
  | invalid_argument
  | out_of_range
  | logic_error (what : string)
  | system_error.

Definition isspace (c : ascii) : bool :=
  let n := Z.of_N (N_of_ascii c) in (n =? 32) || ((9 <=? n) && (n <=? 13)).

Definition digit_value (c : ascii) : option Z :=
  let n := Z.of_N (N_of_ascii c) in
  if (48 <=? n) && (n <=? 57) then Some (n - 48) else None.

Fixpoint skip_spaces (s : string) : string :=
  match s with
  | String c rest => if isspace c then skip_spaces rest else s
  | EmptyString => EmptyString
  end.

(** The longest prefix of decimal digits, most significant first. *)
Fixpoint take_digits (s : string) : list Z :=
  match s with
  | String c rest =>
      match digit_value c with
      | Some d => d :: take_digits rest
      | None => []
      end
  | EmptyString => []
  end.

Definition digits_value (ds : list Z) : Z :=
  fold_left (fun acc d => 10 * acc + d) ds 0.

Definition read_sign (s : string) : bool * string :=
  match s with
  | String c rest =>
      if Ascii.eqb c "-" then (true, rest)
      else if Ascii.eqb c "+" then (false, rest)
      else (false, s)
  | EmptyString => (false, s)
  end.

Definition stoi (str : string) : exn + Z :=
  let '(negative, body) := read_sign (skip_spaces str) in
  match take_digits body with
  | [] => inl invalid_argument
  | ds =>
      let v := if negative then - digits_value ds else digits_value ds in
      if in_int v then inr v else inl out_of_range
  end.

(** [arguments.at(i)] on the [std::vector<std::string>] of arguments. *)
Definition vector_at (arguments : list string) (i : nat) : exn + string :=
  match arguments !! i with
  | Some a => inr a
  | None => inl out_of_range
  end.

(** [std::stoi(arguments.at(i))]. *)
Definition stoi_at (arguments : list string) (i : nat) : exn + Z :=
  match vector_at arguments i with
  | inr a => stoi a
  | inl e => inl e
  end.

(** ** Command line parameters: [parseCommandLine] *)

Definition CommandLineParameter_Threads : string := "--threads".
Definition CommandLineParameter_Delay : string := "--delay".

Definition convertArgumentToPositiveInteger (arg : string) : exn + Z :=
  match stoi arg with
  | inr value =>
      if value <? 0
      then inl (logic_error "Parameter value must be a positive integer number")
      else inr value
  | inl e => inl e
  end.

(** The [for] loop over [argv[1..argc-1]]; [args] is what is left to read.
    An option name is only recognised when a value follows it
    ([i + 1 < argc]); the value is consumed by [argv[++i]]. *)
Fixpoint parse_loop (args : list string) (numberOfThreads delay : Z)
  : exn + (Z * Z) :=
  match args with
  | [] => inr (numberOfThreads, delay)
  | argument :: rest =>
      match rest with
      | v :: rest' =>
          if String.eqb argument CommandLineParameter_Threads then
            match convertArgumentToPositiveInteger v with
            | inr n => parse_loop rest' n delay
            | inl e => inl e
            end
          else if String.eqb argument CommandLineParameter_Delay then
            match convertArgumentToPositiveInteger v with
            | inr d => parse_loop rest' numberOfThreads d
            | inl e => inl e
            end
          else inl (logic_error ("Unknown command line parameter " ++ argument)%string)
      | [] => inl (logic_error ("Unknown command line parameter " ++ argument)%string)
      end
  end.

(** What [parseCommandLine] ends in: the pair it returns, or [exit(code)]
    after printing [message]. *)
Inductive startup : Type :=
  | Configured (numberOfThreads : Z) (threadStartDelay : Z)
  | Exit (code : Z) (message : string).

(** [args] is [argv] without the program name; [hardware_concurrency] is
    what [std::thread::hardware_concurrency()] returns on the machine. *)
Definition parseCommandLine (hardware_concurrency : Z) (args : list string) : startup :=
  match parse_loop args hardware_concurrency 1 with
  | inr (n, d) => Configured n d
  | inl invalid_argument => Exit 1 "Value of an argument is not a number"
  | inl out_of_range => Exit 1 "stoi"
  | inl (logic_error what) => Exit 1 what
  | inl system_error => Exit 1 "system_error"
  end.

(** ** The process state *)

Record ThreadData : Type := mkThreadData { killed : bool; value : Z }.

(** Where a worker thread stands in the lambda of [startNewThread]. *)
Inductive position : Type :=
  | Registering   (* before [threadsData.insert] *)
  | Announcing    (* before the "was started" line *)
  | LoopHead      (* at the test [while (!programFinished)] *)
  | Sleeping      (* inside the loop, before the guarded block *)
  | Finishing     (* after the loop, before the "was finished" line *)
  | Finished.     (* the lambda has returned; the thread awaits [join] *)

(** The locals of one worker thread. *)
Record Thread : Type := mkThread {
  initialValue : option Z;
  threadValue : Z;
  at_position : position
}.

(** The thread started by [launchThreads]; [i] is its loop counter. *)
Inductive launcher_state : Type :=
  | LauncherStarting
  | LauncherChecking (i : Z)
  | LauncherSpawning (i : Z)
  | LauncherEnding
  | LauncherFinished.

(** What is written to [std::cout], one entry per line. *)
Inductive line : Type :=
  | Text (s : string)
  | ThreadStarted (id v : Z)    (* Thread (id=..) was started, my init value =.. *)
  | ThreadFinished (id v : Z)   (* Thread (id=..) was finished, value = .. *)
  | ThreadInfo (id v : Z)       (* Thread (id=..), value = .. *)
  | ThreadReset (id v : Z).     (* Thread (id=..), new value is .. *)

(** [runningThreads] holds, for each [std::thread] of the list, what its
    [get_id()] returns: the id of its thread, or [0] (the id of no thread)
    once it has been joined.  [threads] are the threads of the operating
    system that were started and not yet joined, by id. *)
Record State : Type := mkState {
  programFinished : bool;
  runningThreads : list Z;
  threadsData : gmap Z ThreadData;
  threads : gmap Z Thread;
  launcher : launcher_state;
  numberOfThreads : Z;
  cout : list line
}.

Definition set_programFinished (b : bool) (s : State) : State :=
  mkState b (runningThreads s) (threadsData s) (threads s) (launcher s)
          (numberOfThreads s) (cout s).
Definition set_runningThreads (l : list Z) (s : State) : State :=
  mkState (programFinished s) l (threadsData s) (threads s) (launcher s)
          (numberOfThreads s) (cout s).
Definition set_threadsData (m : gmap Z ThreadData) (s : State) : State :=
  mkState (programFinished s) (runningThreads s) m (threads s) (launcher s)
          (numberOfThreads s) (cout s).
Definition set_threads (m : gmap Z Thread) (s : State) : State :=
  mkState (programFinished s) (runningThreads s) (threadsData s) m (launcher s)
          (numberOfThreads s) (cout s).
Definition set_launcher (l : launcher_state) (s : State) : State :=
  mkState (programFinished s) (runningThreads s) (threadsData s) (threads s) l
          (numberOfThreads s) (cout s).
Definition print (l : line) (s : State) : State :=
  mkState (programFinished s) (runningThreads s) (threadsData s) (threads s)
          (launcher s) (numberOfThreads s) (cout s ++ [l]).

(** ** Outcomes

    A computation returns ([Done]), ends the process through an uncaught
    exception ([Terminate], as [std::terminate] does), has undefined
    behaviour, or is still blocked when the schedule it was given ends
    ([Waiting]). *)
Inductive outcome (A : Type) : Type :=
  | Done (a : A)
  | Terminate (e : exn)
  | Undefined
  | Waiting.
Arguments Done {A} a.
Arguments Terminate {A} e.
Arguments Undefined {A}.
Arguments Waiting {A}.

#[global] Instance outcome_bind : MBind outcome := fun A B f m =>
  match m with
  | Done a => f a
  | Terminate e => Terminate e
  | Undefined => Undefined
  | Waiting => Waiting
  end.

(** ** Worker threads *)

(** [rnd] is what [std::rand()] returns after [std::srand(time(nullptr))]. *)
Definition initializeThreadValue (initialValue : option Z) (rnd : Z) : Z :=
  match initialValue with
  | Some v => v
  | None => rnd
  end.

(** [std::map::insert]: an existing key keeps its element. *)
Definition map_insert_new (id : Z) (d : ThreadData) (m : gmap Z ThreadData)
  : gmap Z ThreadData :=
  match m !! id with
  | Some _ => m
  | None => <[id := d]> m
  end.

(** What the operating system allows as the id of a new thread: an id
    that no started, unjoined thread has, and not the id of no thread. *)
Definition os_allows (s : State) (tid : Z) : bool :=
  negb (tid =? 0) && bool_decide (threads s !! tid = None).

(** [startNewThread]: under [threadPoolMutex], a [std::thread] is appended
    to [runningThreads] and starts to run.  [tid] is the id the operating
    system gives it; when no thread can be started the constructor throws
    [std::system_error]. *)
Definition startNewThread (tid : Z) (initialValue : option Z) (s : State)
  : outcome State :=
  if os_allows s tid then
    Done (set_threads (<[tid := mkThread initialValue 0 Registering]> (threads s))
            (set_runningThreads (runningThreads s ++ [tid]) s))
  else Terminate system_error.

Definition move (tid : Z) (t : Thread) (p : position) (s : State) : State :=
  set_threads (<[tid := mkThread (initialValue t) (threadValue t) p]> (threads s)) s.

(** The guarded block of the worker loop (lines 95 to 102): one tick. *)
Definition tick (tid : Z) (t : Thread) (s : State) : outcome State :=
  match threadsData s !! tid with
  | None => Terminate out_of_range            (* [threadsData.at(threadId)] *)
  | Some threadData =>
      if killed threadData then Done (move tid t Finishing s)
      else
        let v := incr64 (value threadData) in
        Done (set_threads (<[tid := mkThread (initialValue t) v LoopHead]> (threads s))
                (set_threadsData (<[tid := mkThreadData (killed threadData) v]> (threadsData s)) s))
  end.

(** One atomic step of the worker thread [tid]. *)
Definition worker_step (tid rnd : Z) (s : State) : outcome State :=
  match threads s !! tid with
  | None => Done s
  | Some t =>
      match at_position t with
      | Registering =>
          let v := initializeThreadValue (initialValue t) rnd in
          Done (set_threads (<[tid := mkThread (initialValue t) v Announcing]> (threads s))
                  (set_threadsData (map_insert_new tid (mkThreadData false v) (threadsData s)) s))
      | Announcing =>
          Done (print (ThreadStarted tid (threadValue t)) (move tid t LoopHead s))
      | LoopHead =>
          if programFinished s then Done (move tid t Finishing s)
          else Done (move tid t Sleeping s)
      | Sleeping => tick tid t s
      | Finishing =>
          Done (print (ThreadFinished tid (threadValue t)) (move tid t Finished s))
      | Finished => Done s
      end
  end.

(** ** The launcher thread of [launchThreads]

    [locked] tells that [threadPoolMutex] is held by the caller of the
    step: the launcher then blocks in [startNewThread]. *)
Definition launcher_step (locked : bool) (tid : Z) (s : State) : outcome State :=
  match launcher s with
  | LauncherStarting =>
      Done (print (Text "Thread initializer thread started.")
              (set_launcher (LauncherChecking 0) s))
  | LauncherChecking i =>
      if (i <? numberOfThreads s) && negb (programFinished s)
      then Done (set_launcher (LauncherSpawning i) s)
      else Done (set_launcher LauncherEnding s)
  | LauncherSpawning i =>
      if locked then Done s
      else s' ← startNewThread tid None s;
           Done (set_launcher (LauncherChecking (i + 1)) s')
  | LauncherEnding =>
      Done (print (Text "Thread initializer thread finished.")
              (set_launcher LauncherFinished s))
  | LauncherFinished => Done s
  end.

(** ** Schedules *)

Inductive event : Type :=
  | WorkerStep (tid rnd : Z)
  | LauncherStep (tid : Z).

Definition do_event (locked : bool) (e : event) (s : State) : outcome State :=
  match e with
  | WorkerStep tid rnd => worker_step tid rnd s
  | LauncherStep tid => launcher_step locked tid s
  end.

Fixpoint run_events (locked : bool) (sch : list event) (s : State) : outcome State :=
  match sch with
  | [] => Done s
  | e :: sch' => s' ← do_event locked e s; run_events locked sch' s'
  end.

(** ** Operations on the pool *)

(** [threadIt->join()] on the handle at position [k]: the caller blocks
    while the threads of [sch] run, and returns once the joined thread has
    finished; the [std::thread] is then no longer joinable.  Joining a
    [std::thread] that is not joinable throws [std::system_error]. *)
Definition join (locked : bool) (k : nat) (sch : list event) (s : State)
  : outcome State :=
  match runningThreads s !! k with
  | None => Undefined
  | Some tid =>
      if tid =? 0 then Terminate system_error
      else
        s' ← run_events locked sch s;
        match threads s' !! tid with
        | Some t =>
            match at_position t with
            | Finished =>
                Done (set_threads (delete tid (threads s'))
                        (set_runningThreads (<[k := 0]> (runningThreads s')) s'))
            | _ => Waiting
            end
        | None => Undefined
        end
  end.

(** The loop of [printThreadsInfo] over [runningThreads]. *)
Fixpoint print_info (handles : list Z) (s : State) : outcome State :=
  match handles with
  | [] => Done s
  | id :: rest =>
      match threadsData s !! id with
      | Some d => print_info rest (print (ThreadInfo id (value d)) s)
      | None => Terminate out_of_range        (* [threadsData.at(id)] *)
      end
  end.

Definition printThreadsInfo (s : State) : outcome State :=
  print_info (runningThreads s) s.

(** [std::find_if] over [runningThreads]: the position of the first
    handle whose [get_id()] is [id]; [None] stands for [end()]. *)
Definition find_handle (id : Z) (handles : list Z) : option nat :=
  fst <$> list_find (fun h => h = id) handles.

(** [killThread].  The three schedules are what the other threads do
    between its guarded blocks: after the record is marked, during the
    [join], and before the final block that erases.  Erasing at [end()]
    is undefined behaviour. *)
Definition killThread (id : Z) (after_mark during_join before_erase : list event)
    (s : State) : outcome State :=
  let idToKill := id in
  match threadsData s !! idToKill with
  | None => Done s
  | Some d =>
      let s := set_threadsData (<[idToKill := mkThreadData true (value d)]> (threadsData s)) s in
      s ← run_events false after_mark s;
      let threadIt := find_handle idToKill (runningThreads s) in
      s ← match threadIt with
          | Some k => join false k during_join s
          | None => Done s
          end;
      s ← run_events false before_erase s;
      let s := set_threadsData (delete idToKill (threadsData s)) s in
      match threadIt with
      | Some k => Done (set_runningThreads (delete k (runningThreads s)) s)
      | None => Undefined
      end
  end.

Definition resetThread (id newValue : Z) (s : State) : State :=
  let idToReset := id in
  match threadsData s !! idToReset with
  | None => s
  | Some d =>
      print (ThreadReset idToReset newValue)
        (set_threadsData (<[idToReset := mkThreadData (killed d) newValue]> (threadsData s)) s)
  end.

(** The loop of [stopRunningThreads], which holds [threadPoolMutex]:
    [n] handles are left to join from position [k] on, and the head of
    [schs] is what the other threads do during the next [join]. *)
Fixpoint join_from (k n : nat) (schs : list (list event)) (s : State)
  : outcome State :=
  match n with
  | O => Done s
  | S n' => s' ← join true k (hd [] schs) s; join_from (S k) n' (tl schs) s'
  end.

Definition stopRunningThreads (schs : list (list event)) (s : State) : outcome State :=
  join_from 0 (length (runningThreads s)) schs s.

(** ** The console *)

Definition ConsoleCommand_Info : string := "info".
Definition ConsoleCommand_NewThread : string := "new".
Definition ConsoleCommand_KillThread : string := "kill".
Definition ConsoleCommand_ResetThread : string := "reset".
Definition ConsoleCommand_Stop : string := "stop".

(** [iss >> word] repeated: the maximal runs of characters that are not
    white space; [cur] is the word being read. *)
Fixpoint split_words (cur : string) (s : string) : list string :=
  match s with
  | EmptyString => if String.eqb cur "" then [] else [cur]
  | String c rest =>
      if isspace c then
        if String.eqb cur "" then split_words "" rest
        else cur :: split_words "" rest
      else split_words (cur ++ String c "")%string rest
  end.

Definition parseCommand (line : string) : string * list string :=
  match split_words "" line with
  | [] => ("", [])
  | command :: arguments => (command, arguments)
  end.

(** What surrounds one command: the id the operating system gives to a
    thread the command starts, and what the other threads do while the
    command is between two of its guarded blocks or blocked in a [join]. *)
Record environment : Type := mkEnvironment {
  os_thread_id : Z;
  after_mark : list event;
  during_join : list event;
  before_erase : list event;
  before_lock : list event;
  during_joins : list (list event)
}.

Definition invokeCommand (line : string) (env : environment) (s : State)
  : outcome State :=
  let '(command, arguments) := parseCommand line in
  if String.eqb command ConsoleCommand_Info then printThreadsInfo s
  else if String.eqb command ConsoleCommand_NewThread then
    let value := match stoi_at arguments 0 with
                 | inr v => Some v
                 | inl _ => None
                 end in
    startNewThread (os_thread_id env) value s
  else if String.eqb command ConsoleCommand_KillThread then
    match stoi_at arguments 0 with
    | inl _ => Done (print (Text "Please provide thread id") s)
    | inr v =>
        killThread (to_size_t v) (after_mark env) (during_join env) (before_erase env) s
    end
  else if String.eqb command ConsoleCommand_ResetThread then
    match stoi_at arguments 0 with
    | inl _ => Done (print (Text "Please provide thread id") s)
    | inr v =>
        let newValue := match stoi_at arguments 1 with
                        | inr n => n
                        | inl _ => 0
                        end in
        Done (resetThread (to_size_t v) newValue s)
    end
  else if String.eqb command ConsoleCommand_Stop then
    s ← run_events false (before_lock env) (set_programFinished true s);
    stopRunningThreads (during_joins env) s
  else Done (print (Text "Unknown command.") s).

(** One round of [listenToCommandLine]: what the other threads do while
    [std::getline] waits, the line read, and the command's environment. *)
Record turn : Type := mkTurn {
  background : list event;
  typed : string;
  around : environment
}.

Fixpoint listenToCommandLine (input : list turn) (s : State) : outcome State :=
  if programFinished s then Done s
  else
    match input with
    | [] => Waiting
    | t :: rest =>
        s ← run_events false (background t) s;
        s ← invokeCommand (typed t) (around t) s;
        listenToCommandLine rest s
    end.

Definition initial_state (numberOfThreads : Z) : State :=
  mkState false [] ∅ ∅ LauncherStarting numberOfThreads [].

(** How the process ends: with an exit code, or in [std::terminate]. *)
Inductive exit_status : Type :=
  | Exited (code : Z)
  | Aborted.

(** The destruction of the objects of static storage duration, which
    follows the return from [main] and the call of [exit]:
    [~list<std::thread>] destroys every handle of [runningThreads], and
    [~thread] calls [std::terminate] when the handle is joinable. *)
Definition destroy_statics (code : Z) (s : State) : exit_status :=
  if forallb (fun handle => handle =? 0) (runningThreads s) then Exited code
  else Aborted.

(** [main], to the end of the process: how the process ends and what was
    printed.  [finale] is what the other threads do while
    [threadCreatorThread.join()] waits.  The [exit(1)] of
    [parseCommandLine] happens before any thread is started; [return 0]
    happens with [runningThreads] as the run has left it. *)
Definition main (hardware_concurrency : Z) (args : list string)
    (input : list turn) (finale : list event)
  : outcome (exit_status * list line) :=
  match parseCommandLine hardware_concurrency args with
  | Exit code message =>
      Done (destroy_statics code (initial_state 0), [Text message])
  | Configured n _ =>
      s ← listenToCommandLine input (initial_state n);
      s ← run_events false finale s;
      match launcher s with
      | LauncherFinished => Done (destroy_statics 0 s, cout s)
      | _ => Waiting
      end
  end.

(** ** Notions used in the statements *)

(** [n] passes of the worker [tid] through the body of its loop: each is
    the guarded block (a tick) followed by the test of the loop. *)
Definition ticks (n : nat) (tid : Z) : list event :=
  concat (replicate n [WorkerStep tid 0; WorkerStep tid 0]).

(** The lines [printThreadsInfo] is to print: one per handle, in the order
    of [runningThreads], with the value recorded for the handle's id. *)
Definition info_lines (s : State) : list line :=
  (fun id => ThreadInfo id (from_option value 0 (threadsData s !! id)))
    <$> runningThreads s.

(** A worker in its loop whose record is not in [threadsData], and a pool
    whose only worker has been started and has not registered yet. *)
Definition unregistered_sleeper : State :=
  mkState false [7] ∅ {[ 7 := mkThread None 41 Sleeping ]} LauncherFinished 0 [].
Definition just_started : State :=
  mkState false [7] ∅ {[ 7 := mkThread (Some 100) 0 Registering ]} LauncherStarting 0 [].

(** A pool with one registered worker in its loop, value [100]. *)
Definition one_worker : State :=
  mkState false [7] {[ 7 := mkThreadData false 100 ]}
          {[ 7 := mkThread (Some 100) 100 Sleeping ]} LauncherFinished 0
          [ThreadStarted 7 100].

(** An environment in which no other thread moves. *)
Definition quiet (tid : Z) : environment := mkEnvironment tid [] [] [] [] [].

(** The text of an integer, read strictly: an optional sign and then
    decimal digits up to the end of the text. *)
Fixpoint decimal_value (acc : Z) (s : string) : option Z :=
  match s with
  | EmptyString => Some acc
  | String c rest =>
      match digit_value c with
      | Some d => decimal_value (10 * acc + d) rest
      | None => None
      end
  end.

Definition integer_text (t : string) : option Z :=
  match t with
  | EmptyString => None
  | String c rest =>
      if Ascii.eqb c "-" then
        if String.eqb rest "" then None else Z.opp <$> decimal_value 0 rest
      else if Ascii.eqb c "+" then
        if String.eqb rest "" then None else decimal_value 0 rest
      else decimal_value 0 t
  end.

(** What [parseCommandLine] takes as the value of an option: text in
    which [std::stoi] finds an [int] that is not negative. *)
Definition accepted_value (v : string) : Prop :=
  exists n, stoi v = inr n /\ 0 <= n.

(** Command lines made of known options, each followed by such a value. *)
Inductive accepted_args : list string -> Prop :=
  | accepted_none : accepted_args []
  | accepted_threads (v : string) (rest : list string) :
      accepted_value v -> accepted_args rest ->
      accepted_args (CommandLineParameter_Threads :: v :: rest)
  | accepted_delay (v : string) (rest : list string) :
      accepted_value v -> accepted_args rest ->
      accepted_args (CommandLineParameter_Delay :: v :: rest).

(** The [i]-th argument of a command is missing, or it is text on which
    [std::stoi] throws. *)
Definition no_int_at (arguments : list string) (i : nat) : Prop :=
  match arguments !! i with
  | None => True
  | Some a => exists e, stoi a = inl e
  end.

Definition known_commands : list string :=
  [ConsoleCommand_Info; ConsoleCommand_NewThread; ConsoleCommand_KillThread;
   ConsoleCommand_ResetThread; ConsoleCommand_Stop].

(** ** Invariants *)

(** Between [s] and [s'] no record was erased and no [killed] flag was
    changed, and every record that is new is not killed. *)
Definition flags_kept (s s' : State) : Prop :=
  (forall id d, threadsData s !! id = Some d ->
     exists d', threadsData s' !! id = Some d' /\ killed d' = killed d)
  /\ (forall id d', threadsData s !! id = None ->
        threadsData s' !! id = Some d' -> killed d' = false).

(** The [killed] flag of every record of [s'] against [s]: a record that
    was there and killed is still killed, a record that was not there is
    not killed. *)
Definition flags_monotone (s s' : State) : Prop :=
  forall id d', threadsData s' !! id = Some d' ->
    match threadsData s !! id with
    | Some d => killed d = true -> killed d' = true
    | None => killed d' = false
    end.

(** The handles that are joinable denote distinct threads, and the
    threads that were started and not joined are those of the handles. *)
Definition handles_distinct (handles : list Z) : Prop :=
  forall i j tid, handles !! i = Some tid -> handles !! j = Some tid ->
    tid <> 0 -> i = j.

Definition pool_wf (s : State) : Prop :=
  handles_distinct (runningThreads s)
  /\ forall tid, is_Some (threads s !! tid) <-> tid <> 0 /\ tid ∈ runningThreads s.

(** No thread started in [sch] is given the id [id]. *)
Definition never_starts (id : Z) (sch : list event) : Prop :=
  Forall (fun e => e <> LauncherStep id) sch.

(** How many steps a worker at position [p] is from [Finished] once it
    is to stop; [fin] tells whether the shutdown flag is set. *)
Definition rank (fin : bool) (p : position) : nat :=
  match p with
  | Registering => 5
  | Announcing => 4
  | LoopHead => if fin then 2 else 3
  | Sleeping => if fin then 3 else 2
  | Finishing => 1
  | Finished => 0
  end.

(** The worker [tid] at [t] has been told to stop and can: the shutdown
    flag is set and its record is there or it is about to insert it, or
    its record is marked killed. *)
Definition stopping (s : State) (tid : Z) (t : Thread) : Prop :=
  (programFinished s = true
   /\ (at_position t = Registering \/ is_Some (threadsData s !! tid)))
  \/ (exists d, threadsData s !! tid = Some d /\ killed d = true).

(** Every worker past its registration has its record. *)
Definition all_registered (s : State) : Prop :=
  forall tid t, threads s !! tid = Some t ->
    at_position t = Registering \/ is_Some (threadsData s !! tid).

(** [one_worker] after the command [reset 7 5]. *)
Definition one_worker_reset : State := resetThread 7 5 one_worker.

(** Five steps of one worker, which bring it to [Finished] from any
    position once it is told to stop. *)
Definition five_steps (tid : Z) : list event := replicate 5 (WorkerStep tid 0).

(** An environment of [stop] in which, during each [join], the joined
    worker runs to its end. *)
Definition stop_environment (s : State) : environment :=
  mkEnvironment 0 [] [] [] [] (five_steps <$> runningThreads s).

(** A session in which [stop] is the first line typed, and the three
    steps in which the launcher then ends. *)
Definition stop_at_once : list turn := [mkTurn [] "stop" (quiet 0)].
Definition launcher_ends : list event := [LauncherStep 0; LauncherStep 0; LauncherStep 0].

(** A session in which [stop] is typed when the launcher has passed the
    test of its loop and has not called [startNewThread] yet, and the
    steps in which the launcher then starts its worker, as thread [9],
    and ends. *)
Definition stop_before_spawn : list turn :=
  [mkTurn [LauncherStep 0; LauncherStep 0] "stop" (quiet 0)].
Definition late_spawn : list event := [LauncherStep 9; LauncherStep 0; LauncherStep 0].

(** The states of a run: from the start of [main] on, the other threads
    take steps and, as long as the shutdown flag is not set, the console
    runs commands. *)
Inductive reachable : State -> Prop :=
  | reachable_start (numberOfThreads : Z) :
      reachable (initial_state numberOfThreads)
  | reachable_event (e : event) (s s' : State) :
      reachable s -> do_event false e s = Done s' -> reachable s'
  | reachable_command (line : string) (env : environment) (s s' : State) :
      reachable s -> programFinished s = false ->
      invokeCommand line env s = Done s' -> reachable s'.

(** A run in which the operating system gives the id of a joined thread
    to the next thread: the launcher starts worker [7], which reaches its
    loop; [kill 7] joins it, and before [killThread] erases the record the
    launcher starts its second worker, which is given the id [7] again and
    finds a record under its id. *)
Definition first_worker_runs : list event :=
  [LauncherStep 7; LauncherStep 7; LauncherStep 7;
   WorkerStep 7 5; WorkerStep 7 5; WorkerStep 7 5].
Definition reuse_during_kill : environment :=
  mkEnvironment 0 [] [WorkerStep 7 0; WorkerStep 7 0]
    [LauncherStep 7; LauncherStep 7; WorkerStep 7 9] [] [].
Definition after_reuse : outcome State :=
  run_events false first_worker_runs (initial_state 2)
    ≫= invokeCommand "kill 7" reuse_during_kill.

(** The pool in that run when [kill 7] is typed, and when [killThread]
    has returned. *)
Definition before_kill : State :=
  mkState false [7] {[ 7 := mkThreadData false 5 ]}
          {[ 7 := mkThread None 5 Sleeping ]} (LauncherChecking 1) 2
          [Text "Thread initializer thread started."; ThreadStarted 7 5].
Definition killed_and_reused : State :=
  mkState false [7] ∅ {[ 7 := mkThread None 9 Announcing ]} (LauncherChecking 2) 2
          [Text "Thread initializer thread started."; ThreadStarted 7 5;
           ThreadFinished 7 5].

(** ** Words, decimal numerals and option values *)

(** A word as [operator>>] reads it: not empty, no white space in it. *)
Fixpoint no_space (w : string) : bool :=
  match w with
  | EmptyString => true
  | String c rest => negb (isspace c) && no_space rest
  end.

Definition is_word (w : string) : bool :=
  negb (String.eqb w "") && no_space w.

(** A line of white space only. *)
Fixpoint blank (s : string) : bool :=
  match s with
  | EmptyString => true
  | String c rest => isspace c && blank rest
  end.

(** The words of a command written on one line, one space between them. *)
Definition on_one_line (words : list string) : string := String.concat " " words.

(** The decimal digits of [n], most significant first, put before [acc];
    [fuel] bounds their number. *)
Fixpoint digits_of (fuel : nat) (n : Z) (acc : list Z) : list Z :=
  match fuel with
  | O => acc
  | S fuel' =>
      if n <? 10 then n :: acc
      else digits_of fuel' (n / 10) (n mod 10 :: acc)
  end.

Definition digit_char (d : Z) : ascii := ascii_of_N (Z.to_N (48 + d)).

Fixpoint digits_string (ds : list Z) : string :=
  match ds with
  | [] => EmptyString
  | d :: rest => String (digit_char d) (digits_string rest)
  end.

(** What [operator<<] writes for an integer below [10^20], as the program
    prints thread ids and values. *)
Definition decimal (z : Z) : string :=
  if z <? 0 then String "-" (digits_string (digits_of 20 (- z) []))
  else digits_string (digits_of 20 z []).

(** The value the last occurrence of the option [name] gives, [default]
    when the option does not occur; [args] is a list of options, each
    followed by its value. *)
Fixpoint last_value (name : string) (args : list string) (default : Z) : Z :=
  match args with
  | option :: v :: rest =>
      last_value name rest
        (if String.eqb option name
         then match stoi v with inr n => n | inl _ => default end
         else default)
  | _ => default
  end.

(** ** The launcher *)

(** What holds while only the launcher and the workers run, before any
    command: the launcher's counter is the number of handles, within the
    number of threads to start, and every thread was started without
    initial value. *)
Definition launcher_inv (s : State) : Prop :=
  programFinished s = false /\ 0 <= numberOfThreads s
  /\ match launcher s with
     | LauncherStarting => runningThreads s = []
     | LauncherChecking i =>
         Z.of_nat (length (runningThreads s)) = i /\ i <= numberOfThreads s
     | LauncherSpawning i =>
         Z.of_nat (length (runningThreads s)) = i /\ i < numberOfThreads s
     | LauncherEnding | LauncherFinished =>
         Z.of_nat (length (runningThreads s)) = numberOfThreads s
     end
  /\ forall tid t, threads s !! tid = Some t -> initialValue t = None.

(** The threads the launcher may still start once the shutdown flag is
    set: one if it stands in [startNewThread], none otherwise. *)
Definition late_starts (s : State) : nat :=
  match launcher s with
  | LauncherSpawning _ => 1
  | _ => 0
  end.

(** A run of the launcher alone that starts two workers, as threads [1]
    and [2], and ends. *)
Definition launch_two : list event :=
  [LauncherStep 0; LauncherStep 0; LauncherStep 1; LauncherStep 0;
   LauncherStep 2; LauncherStep 0; LauncherStep 0].

(** How many steps the launcher is from its end once the shutdown flag
    is set. *)
Definition launcher_rank (l : launcher_state) : nat :=
  match l with
  | LauncherStarting => 3
  | LauncherChecking _ => 2
  | LauncherSpawning _ => 3
  | LauncherEnding => 1
  | LauncherFinished => 0
  end.

(** A run of the launcher alone that starts [n] workers, as threads [1]
    to [n], and ends: each round is the test of the loop and the start of
    the next thread. *)
Definition launch_round (i : nat) : list event :=
  [LauncherStep 0; LauncherStep (Z.of_nat (S i))].
Definition launch_all (n : nat) : list event :=
  LauncherStep 0 :: flat_map launch_round (seq 0 n) ++ [LauncherStep 0; LauncherStep 0].

(** ** The pool during a command *)

(** A pool with two registered workers in their loops. *)
Definition two_workers : State :=
  mkState false [7; 8]
          {[ 7 := mkThreadData false 100; 8 := mkThreadData false 200 ]}
          {[ 7 := mkThread (Some 100) 100 Sleeping;
             8 := mkThread (Some 200) 200 Sleeping ]} LauncherFinished 0
          [ThreadStarted 7 100; ThreadStarted 8 200].

(** The pool after the command [new 100] and the first step of the new
    worker, which has inserted its record. *)
Definition newly_registered : State :=
  mkState false [7] {[ 7 := mkThreadData false 100 ]}
          {[ 7 := mkThread (Some 100) 100 Announcing ]} LauncherStarting 0 [].

(** Every record of [threadsData] is that of a thread with a joinable
    handle in [runningThreads]. *)
Definition records_have_handles (s : State) : Prop :=
  forall id, is_Some (threadsData s !! id) -> id <> 0 /\ id ∈ runningThreads s.

(** The outcome is not [Undefined]: no [erase] at [end()] and no [join]
    through a handle that denotes no thread.  (Data races are not in the
    model.) *)
Definition defined {A : Type} (o : outcome A) : bool :=
  match o with
  | Undefined => false
  | _ => true
  end.

(** * Properties *)

(** ** Parsing on concrete inputs *)

Example stoi_plain : stoi "42" = inr 42.
Proof. reflexivity. Qed.
Example stoi_negative : stoi " -7" = inr (-7).
Proof. reflexivity. Qed.
Example stoi_prefix : stoi "12abc" = inr 12.
Proof. reflexivity. Qed.
Example stoi_word : stoi "abc" = inl invalid_argument.
Proof. reflexivity. Qed.
Example stoi_big : stoi "2147483648" = inl out_of_range.
Proof. reflexivity. Qed.
Example stoi_int_min : stoi "-2147483648" = inr (-2147483648).
Proof. reflexivity. Qed.
Example parse_both :
  parseCommandLine 8 ["--threads"; "3"; "--delay"; "0"] = Configured 3 0.
Proof. reflexivity. Qed.
Example parse_dangling : parseCommandLine 8 ["--threads"]
  = Exit 1 "Unknown command line parameter --threads".
Proof. reflexivity. Qed.

(** ** Machine arithmetic *)

Lemma incr64_in_range (v : Z) : INT64_MIN <= v < INT64_MAX -> incr64 v = v + 1.
Proof.
  unfold incr64, wrap64, INT64_MIN, INT64_MAX. intros Hv.
  rewrite Z.mod_small by lia. lia.
Qed.

Lemma incr64_wraps : incr64 INT64_MAX = INT64_MIN.
Proof. reflexivity. Qed.

(** ** One step of a worker *)

Lemma bind_Done {A B} (m : outcome A) (f : A -> outcome B) (b : B) :
  m ≫= f = Done b -> exists a, m = Done a /\ f a = Done b.
Proof. destruct m; simpl; intros H; try discriminate. eauto. Qed.

Section WorkerStep.
Variables (tid rnd : Z) (s : State) (t : Thread).
Hypothesis Hthread : threads s !! tid = Some t.

Lemma worker_step_sleeping :
  at_position t = Sleeping -> worker_step tid rnd s = tick tid t s.
Proof. intros Hp. unfold worker_step. by rewrite Hthread, Hp. Qed.

Lemma tick_killed (d : ThreadData) :
  threadsData s !! tid = Some d -> killed d = true ->
  tick tid t s = Done (move tid t Finishing s).
Proof. intros Hd Hk. unfold tick. by rewrite Hd, Hk. Qed.

Lemma tick_alive (d : ThreadData) :
  threadsData s !! tid = Some d -> killed d = false ->
  INT64_MIN <= value d < INT64_MAX ->
  tick tid t s =
    Done (set_threads (<[tid := mkThread (initialValue t) (value d + 1) LoopHead]> (threads s))
            (set_threadsData (<[tid := mkThreadData false (value d + 1)]> (threadsData s)) s)).
Proof.
  intros Hd Hk Hv. unfold tick. rewrite Hd, Hk.
  by rewrite incr64_in_range.
Qed.

Lemma tick_missing :
  threadsData s !! tid = None -> tick tid t s = Terminate out_of_range.
Proof. intros Hd. unfold tick. by rewrite Hd. Qed.
End WorkerStep.

(** A whole pass through the loop body: the tick, then the loop test
    brings the worker back to the guarded block. *)
Lemma ticks_run (n : nat) : forall (tid : Z) (s : State) (t : Thread) (d : ThreadData),
  threads s !! tid = Some t -> at_position t = Sleeping ->
  threadsData s !! tid = Some d -> killed d = false ->
  programFinished s = false ->
  INT64_MIN <= value d -> value d + Z.of_nat n <= INT64_MAX ->
  exists s', run_events false (ticks n tid) s = Done s'
    /\ threadsData s' !! tid = Some (mkThreadData false (value d + Z.of_nat n))
    /\ (at_position <$> threads s' !! tid) = Some Sleeping
    /\ runningThreads s' = runningThreads s.
Proof.
  induction n as [|n IH]; intros tid s t d Ht Hp Hd Hk Hfin Hlo Hhi.
  - exists s. simpl. rewrite Z.add_0_r, Ht, Hd. simpl. rewrite Hp.
    destruct d as [k v]; simpl in *; subst. done.
  - unfold ticks. simpl. fold (ticks n tid).
    rewrite (worker_step_sleeping tid 0 s t Ht Hp).
    rewrite (tick_alive tid s t d Hd Hk) by lia. simpl.
    unfold worker_step at 1. simpl. rewrite lookup_insert_eq. simpl. rewrite Hfin. simpl.
    set (s2 := move _ _ _ _).
    destruct (IH tid s2 (mkThread (initialValue t) (value d + 1) Sleeping)
                (mkThreadData false (value d + 1))) as (s' & Hrun & Hrec & Hpos & Hl);
      try done.
    + subst s2. simpl. by rewrite lookup_insert_eq.
    + subst s2. simpl. by rewrite lookup_insert_eq.
    + simpl. lia.
    + simpl. lia.
    + exists s'. split; [done|]. simpl in Hrec. rewrite Hrec.
      split; [f_equal; f_equal; lia|]. done.
Qed.

(** C3: at the guarded block of its loop a worker whose record is marked
    killed leaves the loop and no record changes; otherwise the value of
    its record grows by exactly one and the worker goes on.  So [n] passes
    through the loop add [n] to the value, and after [resetThread] they
    count on from the new value.  The value is an [int64_t] below its
    maximum, where [++] is defined. *)
Theorem tick_stops_or_adds_one (s : State) (tid rnd : Z) (t : Thread) (d : ThreadData) :
  threads s !! tid = Some t -> at_position t = Sleeping ->
  threadsData s !! tid = Some d ->
  INT64_MIN <= value d < INT64_MAX ->
  (killed d = true ->
     exists s', worker_step tid rnd s = Done s'
       /\ threadsData s' = threadsData s
       /\ (at_position <$> threads s' !! tid) = Some Finishing)
  /\ (killed d = false ->
     exists s', worker_step tid rnd s = Done s'
       /\ threadsData s' = <[tid := mkThreadData false (value d + 1)]> (threadsData s)
       /\ threads s' !! tid = Some (mkThread (initialValue t) (value d + 1) LoopHead))
  /\ (killed d = false -> programFinished s = false ->
     forall n : nat, value d + Z.of_nat n <= INT64_MAX ->
     exists s', run_events false (ticks n tid) s = Done s'
       /\ threadsData s' !! tid = Some (mkThreadData false (value d + Z.of_nat n)))
  /\ (killed d = false -> programFinished s = false ->
     forall (v : Z) (n : nat), INT64_MIN <= v -> v + Z.of_nat n <= INT64_MAX ->
     exists s', run_events false (ticks n tid) (resetThread tid v s) = Done s'
       /\ threadsData s' !! tid = Some (mkThreadData false (v + Z.of_nat n))).
Proof.
  intros Ht Hp Hd Hv. repeat split.
  - intros Hk. eexists. rewrite (worker_step_sleeping _ _ _ _ Ht Hp).
    rewrite (tick_killed _ _ _ _ Hd Hk). split; [done|]. simpl.
    by rewrite lookup_insert_eq.
  - intros Hk. eexists. rewrite (worker_step_sleeping _ _ _ _ Ht Hp).
    rewrite (tick_alive _ _ _ _ Hd Hk Hv). split; [done|]. simpl.
    by rewrite lookup_insert_eq.
  - intros Hk Hfin n Hn.
    destruct (ticks_run n tid s t d) as (s' & Hrun & Hrec & _); try done; [lia|].
    eauto.
  - intros Hk Hfin v n Hlo Hhi.
    destruct (ticks_run n tid (resetThread tid v s) t (mkThreadData false v))
      as (s' & Hrun & Hrec & _); try done.
    + unfold resetThread. by rewrite Hd.
    + unfold resetThread. rewrite Hd. simpl. by rewrite lookup_insert_eq, Hk.
    + unfold resetThread. by rewrite Hd.
    + eauto.
Qed.

Lemma tick_stops_or_adds_one_witness :
  exists s', worker_step 7 0 one_worker = Done s'
    /\ threadsData s' = <[7 := mkThreadData false (100 + 1)]> (threadsData one_worker)
    /\ threads s' !! 7 = Some (mkThread (Some 100) (100 + 1) LoopHead).
Proof.
  apply (tick_stops_or_adds_one one_worker 7 0 (mkThread (Some 100) 100 Sleeping)
           (mkThreadData false 100));
    [reflexivity | reflexivity | reflexivity | vm_compute; intuition discriminate
    | reflexivity].
Defined.

(** ** [resetThread] *)

(** C6: [resetThread id v] overwrites the [value] of the record of [id]
    and nothing else: the record keeps its [killed] flag, every other
    record, the handles, the threads, the shutdown flag and the launcher
    are as before (one line is printed); with no record for [id] the
    state is unchanged. *)
Theorem reset_overwrites_value_only (id v : Z) (s : State) :
  match threadsData s !! id with
  | None => resetThread id v s = s
  | Some d =>
      threadsData (resetThread id v s) = <[id := mkThreadData (killed d) v]> (threadsData s)
      /\ (forall id', id' <> id ->
            threadsData (resetThread id v s) !! id' = threadsData s !! id')
      /\ runningThreads (resetThread id v s) = runningThreads s
      /\ threads (resetThread id v s) = threads s
      /\ programFinished (resetThread id v s) = programFinished s
      /\ launcher (resetThread id v s) = launcher s
      /\ cout (resetThread id v s) = cout s ++ [ThreadReset id v]
  end.
Proof.
  unfold resetThread. destruct (threadsData s !! id) as [d|] eqn:Hd; [|done].
  simpl. repeat split. intros id' Hne. by rewrite lookup_insert_ne.
Qed.

(** ** [printThreadsInfo] *)

Lemma print_info_frame (handles : list Z) : forall s s',
  print_info handles s = Done s' ->
  threadsData s' = threadsData s /\ runningThreads s' = runningThreads s
  /\ threads s' = threads s /\ programFinished s' = programFinished s
  /\ launcher s' = launcher s /\ numberOfThreads s' = numberOfThreads s.
Proof.
  induction handles as [|id rest IH]; intros s s' H; simpl in H.
  - by simplify_eq.
  - destruct (threadsData s !! id); [|done]. by apply IH in H.
Qed.

Lemma print_info_registered (handles : list Z) : forall s,
  Forall (fun id => is_Some (threadsData s !! id)) handles ->
  exists s', print_info handles s = Done s'
    /\ cout s' = cout s ++
         ((fun id => ThreadInfo id (from_option value 0 (threadsData s !! id))) <$> handles).
Proof.
  induction handles as [|id rest IH]; intros s Hall; simpl.
  - exists s. by rewrite app_nil_r.
  - apply Forall_cons in Hall as [[d Hd] Hall]. rewrite Hd.
    destruct (IH (print (ThreadInfo id (value d)) s)) as (s' & Hrun & Hout); [done|].
    exists s'. split; [done|]. rewrite Hout. simpl. by rewrite <- app_assoc.
Qed.

Lemma print_info_unregistered (handles : list Z) : forall s,
  Exists (fun id => threadsData s !! id = None) handles ->
  print_info handles s = Terminate out_of_range.
Proof.
  induction handles as [|id rest IH]; intros s Hex; simpl.
  - by apply Exists_nil in Hex.
  - destruct (threadsData s !! id) as [d|] eqn:Hd; [|done].
    apply Exists_cons in Hex as [Hex|Hex]; [congruence|]. by apply IH.
Qed.

(** X2: when the id of every handle of [runningThreads] has a record,
    [printThreadsInfo] prints exactly one line per handle, in the order of
    the list, with the id and the value of its record, and changes nothing
    else.  When the id of some handle has no record the lookup
    [threadsData.at(id)] throws [std::out_of_range], which nothing
    catches: no handle is skipped. *)
Theorem info_one_line_per_registered_handle (s : State) :
  (Forall (fun id => is_Some (threadsData s !! id)) (runningThreads s) ->
     exists s', printThreadsInfo s = Done s'
       /\ cout s' = cout s ++ info_lines s
       /\ length (info_lines s) = length (runningThreads s)
       /\ threadsData s' = threadsData s /\ runningThreads s' = runningThreads s
       /\ threads s' = threads s)
  /\ (Exists (fun id => threadsData s !! id = None) (runningThreads s) ->
     printThreadsInfo s = Terminate out_of_range).
Proof.
  split.
  - intros Hall. destruct (print_info_registered _ s Hall) as (s' & Hrun & Hout).
    exists s'. unfold printThreadsInfo, info_lines. split; [done|]. split; [done|].
    split; [by rewrite length_fmap|].
    apply print_info_frame in Hrun as (? & ? & ? & _). done.
  - apply print_info_unregistered.
Qed.

Lemma info_one_line_per_registered_handle_witness :
  exists s', printThreadsInfo one_worker = Done s'
    /\ cout s' = cout one_worker ++ info_lines one_worker
    /\ length (info_lines one_worker) = length (runningThreads one_worker)
    /\ threadsData s' = threadsData one_worker
    /\ runningThreads s' = runningThreads one_worker
    /\ threads s' = threads one_worker.
Proof.
  apply (proj1 (info_one_line_per_registered_handle one_worker)).
  repeat constructor. by exists (mkThreadData false 100).
Defined.

(** C4: a worker whose handle is in [runningThreads] and which has no
    record yet is to be left out of the report.  The code does not do so:
    right after [new 100], when the worker has been started and has not
    yet inserted its record, [info] ends in an uncaught
    [std::out_of_range]. *)
Theorem info_before_registration_terminates :
  invokeCommand "new 100" (quiet 7) (initial_state 0) = Done just_started
  /\ invokeCommand "info" (quiet 0) just_started = Terminate out_of_range
  /\ ~ (exists s', printThreadsInfo just_started = Done s').
Proof.
  split; [reflexivity|]. split; [reflexivity|]. intros [s' H]. discriminate H.
Qed.

(** ** [std::stoi] on the text of an integer *)

Lemma digit_not_space (c : ascii) (d : Z) : digit_value c = Some d -> isspace c = false.
Proof.
  unfold digit_value, isspace. intros H.
  destruct ((48 <=? _) && (_ <=? 57)) eqn:E; [|done].
  apply andb_prop in E as [E1 E2]. apply Z.leb_le in E1, E2.
  apply orb_false_intro; [apply Z.eqb_neq; lia|].
  apply andb_false_intro2. apply Z.leb_gt. lia.
Qed.

Lemma digit_not_sign (c : ascii) (d : Z) :
  digit_value c = Some d -> Ascii.eqb c "-" = false /\ Ascii.eqb c "+" = false.
Proof.
  intros H. split; apply Ascii.eqb_neq; intros ->; discriminate H.
Qed.

Lemma digit_value_range (c : ascii) (d : Z) : digit_value c = Some d -> 0 <= d <= 9.
Proof.
  unfold digit_value. intros H.
  destruct ((48 <=? _) && (_ <=? 57)) eqn:E; [|done].
  apply andb_prop in E as [E1 E2]. apply Z.leb_le in E1, E2.
  injection H as <-. lia.
Qed.

Lemma decimal_value_digits (s : string) : forall acc z,
  decimal_value acc s = Some z ->
  fold_left (fun a d => 10 * a + d) (take_digits s) acc = z
  /\ (s <> EmptyString -> take_digits s <> []).
Proof.
  induction s as [|c rest IH]; intros acc z H; simpl in *.
  - by simplify_eq.
  - destruct (digit_value c) as [d|]; [|done].
    apply IH in H as [H _]. simpl. done.
Qed.

Lemma stoi_digits (body : string) (z : Z) :
  body <> EmptyString -> decimal_value 0 body = Some z ->
  match take_digits body with
  | [] => False
  | ds => digits_value ds = z
  end.
Proof.
  intros Hne H. apply decimal_value_digits in H as [H Hnil].
  specialize (Hnil Hne). unfold digits_value.
  destruct (take_digits body); done.
Qed.

(** On the text of an integer [std::stoi] returns that integer when it
    fits [int] and throws [std::out_of_range] when it does not. *)
Lemma stoi_integer_text (t : string) (z : Z) :
  integer_text t = Some z ->
  stoi t = if in_int z then inr z else inl out_of_range.
Proof.
  destruct t as [|c rest]; [done|]. unfold integer_text, stoi.
  destruct (Ascii.eqb c "-") eqn:Hminus.
  { apply Ascii.eqb_eq in Hminus as ->.
    destruct (String.eqb rest "") eqn:Hrest; [done|].
    apply String.eqb_neq in Hrest. intros H.
    destruct (decimal_value 0 rest) as [n|] eqn:Hn; [|done]. simpl in H. simplify_eq.
    simpl. pose proof (stoi_digits rest n Hrest Hn) as Hd.
    destruct (take_digits rest); [done|]. by rewrite Hd. }
  destruct (Ascii.eqb c "+") eqn:Hplus.
  { apply Ascii.eqb_eq in Hplus as ->.
    destruct (String.eqb rest "") eqn:Hrest; [done|].
    apply String.eqb_neq in Hrest. intros Hn.
    simpl. pose proof (stoi_digits rest z Hrest Hn) as Hd.
    destruct (take_digits rest); [done|]. by rewrite Hd. }
  intros Hn.
  assert (exists d, digit_value c = Some d) as [d Hc].
  { simpl in Hn. destruct (digit_value c); [eauto|done]. }
  simpl skip_spaces. rewrite (digit_not_space c d Hc).
  unfold read_sign. rewrite Hminus, Hplus.
  pose proof (stoi_digits (String c rest) z ltac:(done) Hn) as Hd.
  destruct (take_digits (String c rest)); [done|]. by rewrite Hd.
Qed.

Example integer_text_strict : integer_text "12abc" = None.
Proof. reflexivity. Qed.
Example integer_text_wide : integer_text "3000000000" = Some 3000000000.
Proof. reflexivity. Qed.

(** ** The console: arguments that are not read *)

Lemma stoi_at_no_int (arguments : list string) (i : nat) :
  no_int_at arguments i <-> exists e, stoi_at arguments i = inl e.
Proof.
  unfold no_int_at, stoi_at, vector_at.
  destruct (arguments !! i) as [a|]; [done|]. split; eauto.
Qed.

(** A thread started with no initial value takes what [std::rand()]
    returns as its value and registers it. *)
Lemma unseeded_thread_draws_rand (tid : Z) (s s' : State) (rnd : Z) :
  startNewThread tid None s = Done s' ->
  exists s'', worker_step tid rnd s' = Done s''
    /\ threads s'' !! tid = Some (mkThread None rnd Announcing)
    /\ (threadsData s !! tid = None ->
        threadsData s'' !! tid = Some (mkThreadData false rnd)).
Proof.
  unfold startNewThread. destruct (os_allows s tid); [|done]. intros [= <-].
  unfold worker_step. simpl. rewrite lookup_insert_eq. simpl.
  eexists. split; [done|]. simpl. rewrite lookup_insert_eq. split; [done|].
  intros Hd. unfold map_insert_new. rewrite Hd. by rewrite lookup_insert_eq.
Qed.

(** C9, as the code has it: [kill] and [reset] whose first argument (the
    id) is missing or is text [std::stoi] throws on print "Please provide
    thread id" and change nothing else; [reset] whose second argument (the
    value) is missing or such text resets to [0]; [new] whose argument is
    missing or such text starts a thread without initial value, which
    takes the result of [std::rand()]; a command that is none of the five
    prints "Unknown command." and changes nothing else. *)
Theorem malformed_arguments (line : string) (env : environment) (s : State)
    (command : string) (arguments : list string) :
  parseCommand line = (command, arguments) ->
  (command = ConsoleCommand_KillThread \/ command = ConsoleCommand_ResetThread ->
     no_int_at arguments 0 ->
     invokeCommand line env s = Done (print (Text "Please provide thread id") s))
  /\ (command = ConsoleCommand_ResetThread ->
      forall id, stoi_at arguments 0 = inr id -> no_int_at arguments 1 ->
      invokeCommand line env s = Done (resetThread (to_size_t id) 0 s))
  /\ (command = ConsoleCommand_NewThread -> no_int_at arguments 0 ->
      invokeCommand line env s = startNewThread (os_thread_id env) None s
      /\ forall s' rnd, startNewThread (os_thread_id env) None s = Done s' ->
         exists s'', worker_step (os_thread_id env) rnd s' = Done s''
           /\ threads s'' !! os_thread_id env = Some (mkThread None rnd Announcing))
  /\ (command ∉ known_commands ->
      invokeCommand line env s = Done (print (Text "Unknown command.") s)).
Proof.
  intros Hparse. unfold invokeCommand. rewrite Hparse.
  split; [|split; [|split]].
  - intros [-> | ->] [e He]%stoi_at_no_int; simpl; by rewrite He.
  - intros -> id Hid [e He]%stoi_at_no_int. simpl. by rewrite Hid, He.
  - intros -> [e He]%stoi_at_no_int. simpl. rewrite He. split; [done|].
    intros s' rnd Hs'.
    destruct (unseeded_thread_draws_rand _ _ _ rnd Hs') as (s'' & ? & ? & _). eauto.
  - intros Hnot. unfold known_commands in Hnot.
    repeat (apply not_elem_of_cons in Hnot as [?%String.eqb_neq Hnot]).
    by repeat match goal with H : String.eqb _ _ = false |- _ => rewrite H; clear H end.
Qed.

Lemma malformed_arguments_witness :
  invokeCommand "kill abc" (quiet 0) one_worker
  = Done (print (Text "Please provide thread id") one_worker).
Proof.
  apply (proj1 (malformed_arguments "kill abc" (quiet 0) one_worker
                  ConsoleCommand_KillThread ["abc"] eq_refl)).
  - by left.
  - by exists invalid_argument.
Defined.

(** C9 as stated fails: [reset 7 abc] has a malformed argument, yet the
    command is not reported and it overwrites the value of worker [7]. *)
Lemma reset_with_malformed_value_takes_effect :
  exists s', invokeCommand "reset 7 abc" (quiet 0) one_worker = Done s'
    /\ threadsData one_worker !! 7 = Some (mkThreadData false 100)
    /\ threadsData s' !! 7 = Some (mkThreadData false 0)
    /\ cout s' = cout one_worker ++ [ThreadReset 7 0].
Proof. eexists. split; [reflexivity|]. by vm_compute. Qed.

(** C10: an integer that does not fit [int] is not read by [std::stoi],
    also when it fits [int64_t]: as the seed of [new] it is dropped and
    the thread is started without initial value, so that it takes the
    result of [std::rand()]; as the value of [reset] it becomes [0]; and
    as the id of [kill] or [reset] it gives the line "Please provide
    thread id" and nothing else. *)
Theorem integers_beyond_int (t : string) (z : Z) :
  integer_text t = Some z -> in_int z = false ->
  stoi t = inl out_of_range
  /\ forall (line : string) (env : environment) (s : State) (rest : list string),
       (parseCommand line = (ConsoleCommand_NewThread, t :: rest) ->
          invokeCommand line env s = startNewThread (os_thread_id env) None s
          /\ forall s' rnd, startNewThread (os_thread_id env) None s = Done s' ->
             exists s'', worker_step (os_thread_id env) rnd s' = Done s''
               /\ threads s'' !! os_thread_id env = Some (mkThread None rnd Announcing))
       /\ (parseCommand line = (ConsoleCommand_KillThread, t :: rest) ->
          invokeCommand line env s = Done (print (Text "Please provide thread id") s))
       /\ (parseCommand line = (ConsoleCommand_ResetThread, t :: rest) ->
          invokeCommand line env s = Done (print (Text "Please provide thread id") s))
       /\ (forall a id, parseCommand line = (ConsoleCommand_ResetThread, a :: t :: rest) ->
          stoi a = inr id ->
          invokeCommand line env s = Done (resetThread (to_size_t id) 0 s)).
Proof.
  intros Ht Hz. pose proof (stoi_integer_text t z Ht) as Hstoi. rewrite Hz in Hstoi.
  split; [done|]. intros line env s rest. unfold invokeCommand.
  split; [|split; [|split]].
  - intros ->. simpl. unfold stoi_at. simpl. rewrite Hstoi. split; [done|].
    intros s' rnd Hs'.
    destruct (unseeded_thread_draws_rand _ _ _ rnd Hs') as (s'' & ? & ? & _). eauto.
  - intros ->. simpl. unfold stoi_at. simpl. by rewrite Hstoi.
  - intros ->. simpl. unfold stoi_at. simpl. by rewrite Hstoi.
  - intros a id -> Ha. simpl. unfold stoi_at. simpl. by rewrite Ha, Hstoi.
Qed.

Lemma integers_beyond_int_witness :
  in_int64 3000000000 = true
  /\ invokeCommand "reset 7 3000000000" (quiet 0) one_worker
     = Done (resetThread (to_size_t 7) 0 one_worker).
Proof.
  split; [reflexivity|].
  apply (proj2 (proj2 (proj2
           (proj2 (integers_beyond_int "3000000000" 3000000000 eq_refl eq_refl)
              "reset 7 3000000000" (quiet 0) one_worker []))) "7" 7).
  - reflexivity.
  - reflexivity.
Defined.

(** ** What a step leaves alone *)

Lemma flags_kept_refl (s : State) : flags_kept s s.
Proof. split; [eauto | congruence]. Qed.

Lemma flags_kept_trans (s1 s2 s3 : State) :
  flags_kept s1 s2 -> flags_kept s2 s3 -> flags_kept s1 s3.
Proof.
  intros [H12 N12] [H23 N23]. split.
  - intros id d Hd. destruct (H12 id d Hd) as (d2 & Hd2 & Hk2).
    destruct (H23 id d2 Hd2) as (d3 & Hd3 & Hk3). exists d3. split; congruence.
  - intros id d3 Hnone Hd3.
    destruct (threadsData s2 !! id) as [d2|] eqn:Hd2.
    + destruct (H23 id d2 Hd2) as (d3' & Hd3' & Hk3).
      rewrite (N12 id d2 Hnone Hd2) in Hk3. congruence.
    + eauto.
Qed.

Lemma flags_kept_same (s s' : State) : threadsData s' = threadsData s -> flags_kept s s'.
Proof. intros H. unfold flags_kept. rewrite H. split; [eauto | congruence]. Qed.

Lemma flags_kept_monotone (s s' : State) : flags_kept s s' -> flags_monotone s s'.
Proof.
  intros [Hk Hn] id d' Hd'. destruct (threadsData s !! id) as [d|] eqn:Hd.
  - destruct (Hk id d Hd) as (d2 & Hd2 & Hk2). congruence.
  - eauto.
Qed.

Lemma worker_step_frame (tid rnd : Z) (s s' : State) :
  worker_step tid rnd s = Done s' ->
  programFinished s' = programFinished s /\ runningThreads s' = runningThreads s
  /\ launcher s' = launcher s /\ numberOfThreads s' = numberOfThreads s
  /\ (forall j, is_Some (threads s' !! j) <-> is_Some (threads s !! j))
  /\ (forall j, j <> tid -> threads s' !! j = threads s !! j)
  /\ (forall j, j <> tid -> threadsData s' !! j = threadsData s !! j).
Proof.
  unfold worker_step, tick, map_insert_new. intros H.
  assert (forall (t : Thread) (m : gmap Z Thread), m !! tid = Some t ->
            forall t' j, is_Some (<[tid := t']> m !! j) <-> is_Some (m !! j)) as Hdom.
  { intros t m Hm t' j. destruct (decide (j = tid)) as [->|Hne].
    - rewrite lookup_insert_eq, Hm. split; eauto.
    - by rewrite lookup_insert_ne. }
  repeat case_match; simplify_eq; simpl; split_and!; try done;
    try (intros; by rewrite ?lookup_insert_ne by done);
    intros; by eapply Hdom.
Qed.

Lemma worker_step_flags (tid rnd : Z) (s s' : State) :
  worker_step tid rnd s = Done s' -> flags_kept s s'.
Proof.
  unfold worker_step, tick, map_insert_new. intros H.
  repeat case_match; simplify_eq; try (by apply flags_kept_same).
  - split; simpl.
    + intros id d Hd. destruct (decide (id = tid)) as [->|Hne].
      * rewrite lookup_insert_eq. naive_solver.
      * rewrite lookup_insert_ne by done. eauto.
    + intros id d' Hnone. destruct (decide (id = tid)) as [->|Hne].
      * rewrite lookup_insert_eq. naive_solver.
      * rewrite lookup_insert_ne by done. congruence.
  - split; simpl.
    + intros id d Hd. destruct (decide (id = tid)) as [->|Hne].
      * rewrite lookup_insert_eq. naive_solver.
      * rewrite lookup_insert_ne by done. eauto.
    + intros id d' Hnone. destruct (decide (id = tid)) as [->|Hne].
      * congruence.
      * rewrite lookup_insert_ne by done. congruence.
Qed.

Lemma launcher_step_effect (locked : bool) (tid : Z) (s s' : State) :
  launcher_step locked tid s = Done s' ->
  programFinished s' = programFinished s /\ threadsData s' = threadsData s
  /\ numberOfThreads s' = numberOfThreads s
  /\ ((runningThreads s' = runningThreads s /\ threads s' = threads s)
      \/ (locked = false /\ tid <> 0 /\ threads s !! tid = None
          /\ runningThreads s' = runningThreads s ++ [tid]
          /\ threads s' = <[tid := mkThread None 0 Registering]> (threads s))).
Proof.
  unfold launcher_step, startNewThread, os_allows. intros H.
  destruct (launcher s); try (simplify_eq; simpl; by auto 10).
  - destruct (_ && _); simplify_eq; simpl; by auto 10.
  - destruct locked; [simplify_eq; by auto 10|].
    destruct (negb (tid =? 0)) eqn:Hz; simpl in H; [|done].
    destruct (bool_decide _) eqn:Hfree; simpl in H; [|done].
    apply bool_decide_eq_true in Hfree. apply negb_true_iff, Z.eqb_neq in Hz.
    simplify_eq. simpl. split_and!; try done. right. done.
Qed.

(** What one event does to the pool: the shutdown flag stays, no record
    is erased and no [killed] flag changes; the handles and the set of
    threads stay, unless the launcher starts a thread, whose handle is
    appended. *)
Lemma do_event_effect (locked : bool) (e : event) (s s' : State) :
  do_event locked e s = Done s' ->
  flags_kept s s' /\ programFinished s' = programFinished s
  /\ numberOfThreads s' = numberOfThreads s
  /\ ((runningThreads s' = runningThreads s
       /\ forall j, is_Some (threads s' !! j) <-> is_Some (threads s !! j))
      \/ (exists tid, e = LauncherStep tid /\ locked = false /\ tid <> 0
          /\ threads s !! tid = None
          /\ runningThreads s' = runningThreads s ++ [tid]
          /\ threads s' = <[tid := mkThread None 0 Registering]> (threads s))).
Proof.
  destruct e as [tid rnd|tid]; simpl; intros H.
  - pose proof (worker_step_flags _ _ _ _ H) as Hflags.
    apply worker_step_frame in H as (? & ? & ? & ? & ? & _). auto 10.
  - apply launcher_step_effect in H as (Hfin & Hdata & Hn & Hpool).
    split; [by apply flags_kept_same|]. split; [done|]. split; [done|].
    destruct Hpool as [[Hl Ht]|Hspawn].
    + left. by rewrite Hl, Ht.
    + right. exists tid. destruct Hspawn as (? & ? & ? & ? & ?). done.
Qed.

Lemma handles_distinct_snoc (handles : list Z) (tid : Z) :
  handles_distinct handles -> tid ∉ handles -> handles_distinct (handles ++ [tid]).
Proof.
  intros Hd Hnew i j t Hi Hj Hne.
  apply lookup_app_Some in Hi as [Hi|[Hi1 Hi2]];
    apply lookup_app_Some in Hj as [Hj|[Hj1 Hj2]].
  - by eapply Hd.
  - apply list_lookup_singleton_Some in Hj2 as [_ ->].
    exfalso. apply Hnew. by eapply list_elem_of_lookup_2.
  - apply list_lookup_singleton_Some in Hi2 as [_ ->].
    exfalso. apply Hnew. by eapply list_elem_of_lookup_2.
  - apply list_lookup_singleton_Some in Hi2 as [Hi2 _].
    apply list_lookup_singleton_Some in Hj2 as [Hj2 _]. lia.
Qed.

Lemma do_event_wf (locked : bool) (e : event) (s s' : State) :
  do_event locked e s = Done s' -> pool_wf s -> pool_wf s'.
Proof.
  intros H [Hd Ht]. apply do_event_effect in H as (_ & _ & _ & [[Hl Hdom]|Hspawn]).
  - split; [by rewrite Hl|]. intros tid. by rewrite Hl, Hdom.
  - destruct Hspawn as (tid & _ & _ & Hz & Hfree & Hl & Hthreads).
    assert (tid ∉ runningThreads s) as Hnotin.
    { intros Hin. destruct (proj2 (Ht tid) (conj Hz Hin)) as [x Hx]. congruence. }
    split; [rewrite Hl; by apply handles_distinct_snoc|].
    intros j. rewrite Hl, Hthreads, elem_of_app, list_elem_of_singleton.
    destruct (decide (j = tid)) as [->|Hne].
    + rewrite lookup_insert_eq. split; [auto|eauto].
    + rewrite lookup_insert_ne by done. rewrite Ht. tauto.
Qed.

(** ** Schedules *)

Lemma run_events_app (locked : bool) (sch1 sch2 : list event) (s : State) :
  run_events locked (sch1 ++ sch2) s
  = run_events locked sch1 s ≫= run_events locked sch2.
Proof.
  revert s. induction sch1 as [|e sch1 IH]; intros s; simpl; [done|].
  destruct (do_event locked e s); simpl; auto.
Qed.

Section RunEvents.
Variable locked : bool.

Lemma run_events_flags (sch : list event) : forall s s',
  run_events locked sch s = Done s' -> flags_kept s s'.
Proof.
  induction sch as [|e sch IH]; intros s s' H; simpl in H.
  - simplify_eq. apply flags_kept_refl.
  - apply bind_Done in H as (s1 & H1 & H2).
    eapply flags_kept_trans; [|by apply IH].
    by apply do_event_effect in H1 as (? & _).
Qed.

Lemma run_events_flag (sch : list event) : forall s s',
  run_events locked sch s = Done s' -> programFinished s' = programFinished s.
Proof.
  induction sch as [|e sch IH]; intros s s' H; simpl in H.
  - by simplify_eq.
  - apply bind_Done in H as (s1 & H1 & H2). apply IH in H2.
    apply do_event_effect in H1 as (_ & ? & _). congruence.
Qed.

Lemma run_events_wf (sch : list event) : forall s s',
  run_events locked sch s = Done s' -> pool_wf s -> pool_wf s'.
Proof.
  induction sch as [|e sch IH]; intros s s' H Hwf; simpl in H.
  - by simplify_eq.
  - apply bind_Done in H as (s1 & H1 & H2).
    eapply IH; [done|]. by eapply do_event_wf.
Qed.

(** Handles are only ever appended by the other threads, and a
    thread that was started stays until it is joined. *)
Lemma run_events_handles (sch : list event) : forall s s',
  run_events locked sch s = Done s' ->
  runningThreads s `prefix_of` runningThreads s'
  /\ (forall j, is_Some (threads s !! j) -> is_Some (threads s' !! j)).
Proof.
  induction sch as [|e sch IH]; intros s s' H; simpl in H.
  - by simplify_eq.
  - apply bind_Done in H as (s1 & H1 & H2). apply IH in H2 as [Hpre Hkeep].
    apply do_event_effect in H1 as (_ & _ & _ & [[Hl Hdom]|Hspawn]).
    + rewrite <- Hl. split; [done|]. intros j Hj. apply Hkeep. by apply Hdom.
    + destruct Hspawn as (tid & _ & _ & _ & Hfree & Hl & Hthreads).
      split.
      * etrans; [|done]. rewrite Hl. by apply prefix_app_r.
      * intros j Hj. apply Hkeep. rewrite Hthreads.
        destruct (decide (j = tid)) as [->|Hne]; [by rewrite lookup_insert_eq|].
        by rewrite lookup_insert_ne.
Qed.

(** An id that no thread has and no handle shows stays so while no
    thread is started with it. *)
Lemma run_events_absent (id : Z) (sch : list event) : forall s s',
  run_events locked sch s = Done s' -> never_starts id sch ->
  threads s !! id = None -> id ∉ runningThreads s ->
  threads s' !! id = None /\ id ∉ runningThreads s'.
Proof.
  induction sch as [|e sch IH]; intros s s' H Hnever Hfree Hnotin; simpl in H.
  - by simplify_eq.
  - apply bind_Done in H as (s1 & H1 & H2).
    apply Forall_cons in Hnever as [He Hnever].
    eapply IH; [done|done| |].
    + apply do_event_effect in H1 as (_ & _ & _ & [[Hl Hdom]|Hspawn]).
      * apply eq_None_not_Some. rewrite Hdom. by apply eq_None_not_Some.
      * destruct Hspawn as (tid & -> & _ & _ & _ & _ & ->).
        rewrite lookup_insert_ne; [done|]. congruence.
    + apply do_event_effect in H1 as (_ & _ & _ & [[Hl Hdom]|Hspawn]).
      * by rewrite Hl.
      * destruct Hspawn as (tid & -> & _ & _ & _ & -> & _).
        rewrite elem_of_app, list_elem_of_singleton. intros [?| ->]; [done|].
        by apply He.
Qed.
End RunEvents.

Lemma run_events_locked_handles (sch : list event) : forall s s',
  run_events true sch s = Done s' -> runningThreads s' = runningThreads s.
Proof.
  induction sch as [|e sch IH]; intros s s' H; simpl in H.
  - by simplify_eq.
  - apply bind_Done in H as (s1 & H1 & H2). apply IH in H2.
    apply do_event_effect in H1 as (_ & _ & _ & [[Hl Hdom]|Hspawn]).
    + congruence.
    + by destruct Hspawn as (tid & _ & ? & _).
Qed.

(** ** Workers and their records *)

(** No step of a worker or of the launcher takes the record of a worker
    away: every worker past its registration keeps its record. *)
Lemma do_event_registered (locked : bool) (e : event) (s s' : State) :
  all_registered s -> do_event locked e s = Done s' -> all_registered s'.
Proof.
  intros Hreg Hstep j tj Hj. destruct e as [tid rnd|tid]; simpl in Hstep.
  - destruct (decide (j = tid)) as [->|Hne].
    + right. pose proof (worker_step_flags _ _ _ _ Hstep) as [Hkeep _].
      pose proof (worker_step_frame _ _ _ _ Hstep) as (_ & _ & _ & _ & Hdom & _).
      destruct (proj1 (Hdom tid) (mk_is_Some _ _ Hj)) as [t Ht].
      destruct (Hreg tid t Ht) as [Hp|[d Hd]].
      * unfold worker_step in Hstep. rewrite Ht, Hp in Hstep. simplify_eq. simpl.
        unfold map_insert_new. destruct (threadsData s !! tid) eqn:Hd.
        -- by rewrite Hd.
        -- by rewrite lookup_insert_eq.
      * destruct (Hkeep tid d Hd) as (d' & Hd' & _). by rewrite Hd'.
    + apply worker_step_frame in Hstep as (_ & _ & _ & _ & _ & Hth & Hda).
      rewrite Hth in Hj by done. rewrite Hda by done. by eapply Hreg.
  - apply launcher_step_effect in Hstep as (_ & Hdata & _ & [[_ Hth]|Hspawn]).
    + rewrite Hdata. rewrite Hth in Hj. by eapply Hreg.
    + destruct Hspawn as (_ & _ & _ & _ & Hth). rewrite Hdata. rewrite Hth in Hj.
      destruct (decide (j = tid)) as [->|Hne].
      * rewrite lookup_insert_eq in Hj. simplify_eq. by left.
      * rewrite lookup_insert_ne in Hj by done. by eapply Hreg.
Qed.

Lemma worker_step_registered (tid rnd : Z) (s : State) :
  all_registered s ->
  exists s', worker_step tid rnd s = Done s' /\ all_registered s'.
Proof.
  intros Hreg.
  assert (exists s', worker_step tid rnd s = Done s') as [s' Hs'].
  { unfold worker_step, tick. destruct (threads s !! tid) as [t|] eqn:Ht; [|by eexists].
    destruct (Hreg tid t Ht) as [Hp|[d Hd]].
    - rewrite Hp. by eexists.
    - rewrite Hd. destruct (at_position t), (programFinished s), (killed d); by eexists. }
  exists s'. split; [done|]. by apply (do_event_registered false (WorkerStep tid rnd) s).
Qed.

(** ** A worker whose record is missing *)

(** X3: a step of a worker whose record is in
    [threadsData] always returns; the same holds outside the guarded
    block.  At the guarded block with no record for its id, the lookup
    [threadsData.at(threadId)] throws [std::out_of_range], which the
    worker does not catch.  While every worker past its registration has
    its record, which the steps of the workers and of the launcher
    preserve, every step of every worker returns. *)
Theorem worker_step_returns_when_registered (s : State) (tid rnd : Z) (t : Thread) :
  threads s !! tid = Some t ->
  (is_Some (threadsData s !! tid) \/ at_position t <> Sleeping ->
     exists s', worker_step tid rnd s = Done s')
  /\ (threadsData s !! tid = None -> at_position t = Sleeping ->
     worker_step tid rnd s = Terminate out_of_range)
  /\ (all_registered s ->
     exists s', worker_step tid rnd s = Done s' /\ all_registered s').
Proof.
  intros Ht. split; [|split; [|apply worker_step_registered]].
  - intros H. unfold worker_step. rewrite Ht.
    destruct (at_position t) eqn:Hp; try (by eexists).
    + destruct (programFinished s); by eexists.
    + destruct H as [[d Hd]|H]; [|done]. unfold tick. rewrite Hd.
      destruct (killed d); by eexists.
  - intros Hd Hp. rewrite (worker_step_sleeping _ _ _ _ Ht Hp). by apply tick_missing.
Qed.

Lemma worker_step_returns_when_registered_witness :
  exists s', worker_step 7 0 one_worker = Done s'.
Proof.
  apply (proj1 (worker_step_returns_when_registered one_worker 7 0
                  (mkThread (Some 100) 100 Sleeping) eq_refl)).
  left. by exists (mkThreadData false 100).
Defined.

(** The worker whose record is missing does not stop; its step ends the
    process. *)
Lemma missing_record_terminates :
  worker_step 7 0 unregistered_sleeper = Terminate out_of_range
  /\ ~ (exists s', worker_step 7 0 unregistered_sleeper = Done s').
Proof. split; [reflexivity|]. intros [s' H]. discriminate H. Qed.

(** ** [join], [killThread] and [stopRunningThreads] taken apart *)

Lemma join_Done (locked : bool) (k : nat) (sch : list event) (s s' : State) :
  join locked k sch s = Done s' ->
  exists tid s1 t,
    runningThreads s !! k = Some tid /\ tid <> 0
    /\ run_events locked sch s = Done s1
    /\ threads s1 !! tid = Some t /\ at_position t = Finished
    /\ s' = set_threads (delete tid (threads s1))
              (set_runningThreads (<[k := 0]> (runningThreads s1)) s1).
Proof.
  unfold join. intros H.
  destruct (runningThreads s !! k) as [tid|] eqn:Hk; [|done].
  destruct (tid =? 0) eqn:Hz; [done|]. apply Z.eqb_neq in Hz.
  apply bind_Done in H as (s1 & Hrun & H).
  destruct (threads s1 !! tid) as [t|] eqn:Ht; [|done].
  destruct (at_position t) eqn:Hp; try done. simplify_eq.
  exists tid, s1, t. done.
Qed.

Lemma join_flags (locked : bool) (k : nat) (sch : list event) (s s' : State) :
  join locked k sch s = Done s' ->
  flags_kept s s' /\ programFinished s' = programFinished s.
Proof.
  intros (tid & s1 & t & _ & _ & Hrun & _ & _ & ->)%join_Done. split.
  - eapply flags_kept_trans; [by eapply run_events_flags|]. by apply flags_kept_same.
  - simpl. by eapply run_events_flag.
Qed.

Lemma join_from_flags (n : nat) : forall k schs s s',
  join_from k n schs s = Done s' ->
  flags_kept s s' /\ programFinished s' = programFinished s.
Proof.
  induction n as [|n IH]; intros k schs s s' H; simpl in H.
  - simplify_eq. split; [apply flags_kept_refl|done].
  - apply bind_Done in H as (s1 & H1 & H2).
    apply join_flags in H1 as [Hf1 Hp1]. apply IH in H2 as [Hf2 Hp2].
    split; [by eapply flags_kept_trans|congruence].
Qed.

Lemma killThread_unknown (id : Z) (sa sj sb : list event) (s : State) :
  threadsData s !! id = None -> killThread id sa sj sb s = Done s.
Proof. intros H. unfold killThread. by rewrite H. Qed.

Lemma killThread_Done (id : Z) (sa sj sb : list event) (s s' : State) (d : ThreadData) :
  threadsData s !! id = Some d -> killThread id sa sj sb s = Done s' ->
  exists s2 k s3 s4,
    run_events false sa
      (set_threadsData (<[id := mkThreadData true (value d)]> (threadsData s)) s) = Done s2
    /\ find_handle id (runningThreads s2) = Some k
    /\ join false k sj s2 = Done s3
    /\ run_events false sb s3 = Done s4
    /\ s' = set_runningThreads (delete k (runningThreads s4))
              (set_threadsData (delete id (threadsData s4)) s4).
Proof.
  intros Hd. unfold killThread. rewrite Hd. intros H.
  apply bind_Done in H as (s2 & H2 & H).
  apply bind_Done in H as (s3 & H3 & H).
  apply bind_Done in H as (s4 & H4 & H).
  destruct (find_handle id (runningThreads s2)) as [k|] eqn:Hk; [|done].
  simplify_eq. by exists s2, k, s3, s4.
Qed.

(** ** The [killed] flag *)

Lemma killThread_flags (id : Z) (sa sj sb : list event) (s s' : State) :
  killThread id sa sj sb s = Done s' ->
  flags_monotone s s' /\ programFinished s' = programFinished s.
Proof.
  destruct (threadsData s !! id) as [d|] eqn:Hd.
  2:{ rewrite (killThread_unknown _ _ _ _ _ Hd). intros [= <-].
      split; [|done]. apply flags_kept_monotone, flags_kept_refl. }
  intros (s2 & k & s3 & s4 & H2 & _ & H3 & H4 & ->)%(killThread_Done _ _ _ _ _ _ d Hd).
  pose proof (run_events_flags _ _ _ _ H2) as F2.
  pose proof (run_events_flag _ _ _ _ H2) as P2.
  apply join_flags in H3 as [F3 P3].
  pose proof (run_events_flags _ _ _ _ H4) as F4.
  pose proof (run_events_flag _ _ _ _ H4) as P4.
  split; [|simpl in *; congruence].
  pose proof (flags_kept_trans _ _ _ (flags_kept_trans _ _ _ F2 F3) F4) as [Hkeep Hnew].
  simpl in Hkeep, Hnew. intros id' d'. simpl.
  destruct (decide (id' = id)) as [->|Hne]; [by rewrite lookup_delete_eq|].
  rewrite lookup_delete_ne by done. intros Hd'.
  specialize (Hkeep id'). specialize (Hnew id' d').
  rewrite lookup_insert_ne in Hkeep, Hnew by done.
  destruct (threadsData s !! id') as [d0|].
  - destruct (Hkeep d0 eq_refl) as (d4 & Hd4 & Hk4). congruence.
  - by apply Hnew.
Qed.

Lemma startNewThread_Done (tid : Z) (init : option Z) (s s' : State) :
  startNewThread tid init s = Done s' ->
  tid <> 0 /\ threads s !! tid = None
  /\ s' = set_threads (<[tid := mkThread init 0 Registering]> (threads s))
            (set_runningThreads (runningThreads s ++ [tid]) s).
Proof.
  unfold startNewThread, os_allows. intros H.
  destruct (negb (tid =? 0)) eqn:Hz; simpl in H; [|done].
  destruct (bool_decide _) eqn:Hfree; simpl in H; [|done].
  apply bool_decide_eq_true in Hfree. apply negb_true_iff, Z.eqb_neq in Hz.
  by simplify_eq.
Qed.

Lemma resetThread_flags (id v : Z) (s : State) : flags_kept s (resetThread id v s).
Proof.
  unfold resetThread. destruct (threadsData s !! id) as [d|] eqn:Hd;
    [|apply flags_kept_refl].
  split; simpl.
  - intros id' d0 Hd0. destruct (decide (id' = id)) as [->|Hne].
    + rewrite lookup_insert_eq. eexists. split; [done|]. simpl. congruence.
    + rewrite lookup_insert_ne by done. eauto.
  - intros id' d' Hnone. destruct (decide (id' = id)) as [->|Hne]; [congruence|].
    rewrite lookup_insert_ne by done. congruence.
Qed.

(** What a command does to the [killed] flags and to the shutdown flag. *)
Lemma invokeCommand_flags (line : string) (env : environment) (s s' : State) :
  invokeCommand line env s = Done s' ->
  flags_monotone s s'
  /\ (programFinished s' = programFinished s
      \/ (parseCommand line).1 = ConsoleCommand_Stop /\ programFinished s' = true).
Proof.
  unfold invokeCommand. destruct (parseCommand line) as [command arguments]. simpl.
  intros Hrun. repeat case_match; simplify_eq.
  - apply print_info_frame in Hrun as (Hdata & _ & _ & Hfin & _).
    split; [by apply flags_kept_monotone, flags_kept_same|by left].
  - apply startNewThread_Done in Hrun as (_ & _ & ->).
    split; [by apply flags_kept_monotone, flags_kept_same|by left].
  - apply startNewThread_Done in Hrun as (_ & _ & ->).
    split; [by apply flags_kept_monotone, flags_kept_same|by left].
  - split; [by apply flags_kept_monotone, flags_kept_same|by left].
  - apply killThread_flags in Hrun as [? ?]. auto.
  - split; [by apply flags_kept_monotone, flags_kept_same|by left].
  - split; [apply flags_kept_monotone, resetThread_flags|left].
    unfold resetThread. by destruct (threadsData s !! _).
  - split; [apply flags_kept_monotone, resetThread_flags|left].
    unfold resetThread. by destruct (threadsData s !! _).
  - apply bind_Done in Hrun as (s1 & Hev & Hjoin).
    pose proof (run_events_flags _ _ _ _ Hev) as F1.
    pose proof (run_events_flag _ _ _ _ Hev) as P1.
    apply join_from_flags in Hjoin as [F2 P2]. split.
    + apply flags_kept_monotone. eapply flags_kept_trans; [|done].
      eapply flags_kept_trans; [|done]. by apply flags_kept_same.
    + right. match goal with E : String.eqb _ _ = true |- _ =>
        apply String.eqb_eq in E end. split; [done|]. simpl in *. congruence.
  - split; [by apply flags_kept_monotone, flags_kept_same|by left].
Qed.

(** C7: over every step of a worker or of the launcher, and over every
    command of the console whatever the other threads do meanwhile, a
    record that is marked killed stays marked as long as it exists, and a
    record that appears is not marked: the flag never goes back to
    [false]. *)
Theorem killed_never_cleared (s s' : State) :
  (forall locked e, do_event locked e s = Done s' -> flags_monotone s s')
  /\ (forall line env, invokeCommand line env s = Done s' -> flags_monotone s s')
  /\ (forall id v, flags_monotone s (resetThread id v s)).
Proof.
  split; [|split].
  - intros locked e H. apply flags_kept_monotone.
    by apply do_event_effect in H as (? & _).
  - intros line env H. by apply invokeCommand_flags in H as [? _].
  - intros id v. apply flags_kept_monotone, resetThread_flags.
Qed.

Lemma killed_never_cleared_witness : flags_monotone one_worker one_worker_reset.
Proof.
  apply (proj1 (proj2 (killed_never_cleared one_worker one_worker_reset))
           "reset 7 5" (quiet 0)).
  reflexivity.
Defined.

(** ** A worker that is told to stop finishes *)

Lemma rank_le_5 (fin : bool) (p : position) : (rank fin p <= 5)%nat.
Proof. destruct fin, p; simpl; lia. Qed.

Lemma worker_step_progress (tid rnd : Z) (s : State) (t : Thread) :
  threads s !! tid = Some t -> stopping s tid t ->
  exists s' t', worker_step tid rnd s = Done s'
    /\ threads s' !! tid = Some t' /\ stopping s' tid t'
    /\ (rank (programFinished s) (at_position t')
        <= rank (programFinished s) (at_position t) - 1)%nat.
Proof.
  intros Ht Hstop. unfold worker_step, tick, map_insert_new. rewrite Ht.
  unfold stopping in *.
  destruct (at_position t) eqn:Hp.
  - (* Registering *)
    do 2 eexists. split; [reflexivity|]. simpl. rewrite lookup_insert_eq.
    split; [reflexivity|]. split; [|simpl; lia].
    destruct Hstop as [[Hfin _]|(d & Hd & Hk)].
    + left. split; [done|]. right.
      destruct (threadsData s !! tid) eqn:Hd; simpl;
        [by rewrite Hd | by rewrite lookup_insert_eq].
    + right. exists d. by rewrite Hd.
  - (* Announcing *)
    do 2 eexists. split; [reflexivity|]. simpl. rewrite lookup_insert_eq.
    split; [reflexivity|]. split; [|destruct (programFinished s); simpl; lia].
    destruct Hstop as [[Hfin [?|Hreg]]|Hkilled]; [congruence| |by right].
    left. split; [done|]. by right.
  - (* LoopHead *)
    destruct (programFinished s) eqn:Hfin.
    + do 2 eexists. split; [reflexivity|]. simpl. rewrite lookup_insert_eq.
      split; [reflexivity|]. split; [|simpl; lia].
      destruct Hstop as [[_ [?|Hreg]]|Hkilled]; [congruence| |by right].
      left. split; [done|]. by right.
    + do 2 eexists. split; [reflexivity|]. simpl. rewrite lookup_insert_eq.
      split; [reflexivity|]. split; [|simpl; lia].
      destruct Hstop as [[? _]|Hkilled]; [congruence|by right].
  - (* Sleeping *)
    assert (exists d, threadsData s !! tid = Some d) as [d Hd].
    { destruct Hstop as [[_ [?|[d Hd]]]|(d & Hd & _)]; [congruence|eauto|eauto]. }
    rewrite Hd. destruct (killed d) eqn:Hk.
    + do 2 eexists. split; [reflexivity|]. simpl. rewrite lookup_insert_eq.
      split; [reflexivity|]. split; [|destruct (programFinished s); simpl; lia].
      right. exists d. done.
    + destruct Hstop as [[Hfin _]|(d' & Hd' & Hk')]; [|congruence].
      do 2 eexists. split; [reflexivity|]. simpl. rewrite lookup_insert_eq.
      split; [reflexivity|]. rewrite Hfin. split; [|simpl; lia].
      left. split; [done|]. right. by rewrite lookup_insert_eq.
  - (* Finishing *)
    do 2 eexists. split; [reflexivity|]. simpl. rewrite lookup_insert_eq.
    split; [reflexivity|]. split; [|simpl; lia].
    destruct Hstop as [[Hfin [?|Hreg]]|Hkilled]; [congruence| |by right].
    left. split; [done|]. by right.
  - (* Finished *)
    exists s, t. split; [done|]. split; [done|]. rewrite Hp. split; [done|].
    simpl. lia.
Qed.

(** Given [n] steps, at least as many as its rank, the worker reaches
    [Finished]; the handles, the shutdown flag and the other threads and
    records are as before. *)
Lemma worker_finishes (locked : bool) (tid rnd : Z) (n : nat) : forall s t,
  threads s !! tid = Some t -> stopping s tid t ->
  (rank (programFinished s) (at_position t) <= n)%nat ->
  exists s' t', run_events locked (replicate n (WorkerStep tid rnd)) s = Done s'
    /\ threads s' !! tid = Some t' /\ at_position t' = Finished
    /\ programFinished s' = programFinished s
    /\ runningThreads s' = runningThreads s
    /\ (forall j, is_Some (threads s' !! j) <-> is_Some (threads s !! j))
    /\ (forall j, j <> tid -> threads s' !! j = threads s !! j)
    /\ (forall j, j <> tid -> threadsData s' !! j = threadsData s !! j).
Proof.
  induction n as [|n IH]; intros s t Ht Hstop Hrank.
  - exists s, t. simpl. split_and!; try done.
    destruct (programFinished s), (at_position t); simpl in Hrank; done || lia.
  - destruct (worker_step_progress tid rnd s t Ht Hstop)
      as (s1 & t1 & Hstep & Ht1 & Hstop1 & Hrank1).
    pose proof (worker_step_frame _ _ _ _ Hstep)
      as (Hfin & Hl & _ & _ & Hdom & Hthreads & Hdata).
    destruct (IH s1 t1 Ht1 Hstop1) as (s' & t' & Hrun & Ht' & Hp' & Hfin' & Hl' & Hdom' & Hth' & Hda');
      [rewrite Hfin; lia|].
    exists s', t'. simpl. rewrite Hstep. simpl. split_and!; try done; try congruence.
    + intros j. by rewrite Hdom', Hdom.
    + intros j Hj. by rewrite Hth', Hthreads.
    + intros j Hj. by rewrite Hda', Hdata.
Qed.

(** ** Handles *)

Lemma find_handle_Some (id : Z) (handles : list Z) (k : nat) :
  find_handle id handles = Some k -> handles !! k = Some id.
Proof.
  unfold find_handle. intros H.
  destruct (list_find _ handles) as [[i x]|] eqn:Hfind; [|done].
  simpl in H. simplify_eq. apply list_find_Some in Hfind as (Hk & -> & _). done.
Qed.

Lemma find_handle_elem (id : Z) (handles : list Z) :
  id ∈ handles -> exists k, find_handle id handles = Some k.
Proof.
  intros Hin. unfold find_handle.
  destruct (list_find_elem_of (fun h => h = id) handles id Hin eq_refl) as [[k x] Hk].
  exists k. by rewrite Hk.
Qed.

(** Once the handle at [k] is joined no handle shows its id any more. *)
Lemma joined_handle_gone (handles : list Z) (k : nat) (id : Z) :
  handles_distinct handles -> handles !! k = Some id -> id <> 0 ->
  id ∉ <[k := 0]> handles.
Proof.
  intros Hd Hk Hz [j Hj]%list_elem_of_lookup_1.
  destruct (decide (j = k)) as [->|Hne].
  - rewrite list_lookup_insert_eq in Hj by (by eapply lookup_lt_Some). congruence.
  - rewrite list_lookup_insert_ne in Hj by done. apply Hne. by eapply Hd.
Qed.

Lemma not_elem_of_delete (handles : list Z) (k : nat) (id : Z) :
  id ∉ handles -> id ∉ delete k handles.
Proof.
  intros Hnot Hin. apply Hnot. by eapply list_elem_of_delete_inv.
Qed.

Lemma info_lines_absent (s : State) (id v : Z) :
  id ∉ runningThreads s -> ThreadInfo id v ∉ info_lines s.
Proof.
  intros Hnot [h [Heq Hin]]%list_elem_of_fmap. by simplify_eq.
Qed.

(** ** [killThread] *)

Lemma set_threadsData_wf (m : gmap Z ThreadData) (s : State) :
  pool_wf s -> pool_wf (set_threadsData m s).
Proof. done. Qed.

(** What holds when [killThread] has returned for a worker that was
    running: its thread was joined, and its record and its handle are
    gone, provided its id is not given to a thread started between the
    [join] and the last guarded block. *)
Lemma killThread_removes (id : Z) (sa sj sb : list event) (s s' : State) :
  pool_wf s -> is_Some (threadsData s !! id) -> is_Some (threads s !! id) ->
  never_starts id sb ->
  killThread id sa sj sb s = Done s' ->
  threads s' !! id = None /\ threadsData s' !! id = None /\ id ∉ runningThreads s'.
Proof.
  intros Hwf [d Hd] Ht Hnever Hrun.
  apply (killThread_Done _ _ _ _ _ _ d Hd) in Hrun
    as (s2 & k & s3 & s4 & H2 & Hk & H3 & H4 & ->).
  apply find_handle_Some in Hk.
  apply join_Done in H3 as (tid & s2' & t & Hk' & Hz & Hj & Hfin & _ & ->).
  assert (tid = id) as -> by congruence.
  pose proof (run_events_wf _ _ _ _ H2 (set_threadsData_wf _ _ Hwf)) as Hwf2.
  pose proof (run_events_wf _ _ _ _ Hj Hwf2) as [Hdist _].
  pose proof (run_events_handles _ _ _ _ Hj) as [Hpre _].
  pose proof (prefix_lookup_Some _ _ _ _ Hk Hpre) as Hk2.
  destruct (run_events_absent false id sb _ _ H4 Hnever) as [Hgone Hnotin].
  { simpl. by rewrite lookup_delete_eq. }
  { simpl. by apply joined_handle_gone. }
  simpl. split; [done|]. split; [by rewrite lookup_delete_eq|].
  by apply not_elem_of_delete.
Qed.

(** [killThread] returns: with the record marked, five steps of the
    worker bring it to its end from wherever it stands. *)
Lemma killThread_returns (id rnd : Z) (s : State) :
  pool_wf s -> is_Some (threadsData s !! id) -> is_Some (threads s !! id) ->
  exists s', killThread id [] (replicate 5 (WorkerStep id rnd)) [] s = Done s'.
Proof.
  intros [Hdist Hthreads] [d Hd] [t Ht]. unfold killThread. rewrite Hd.
  destruct (proj1 (Hthreads id) (mk_is_Some _ _ Ht)) as [Hz Hin].
  destruct (find_handle_elem id _ Hin) as [k Hk].
  pose proof (find_handle_Some _ _ _ Hk) as Hk'.
  set (s1 := set_threadsData _ s).
  destruct (worker_finishes false id rnd 5 s1 t Ht) as (s2 & t2 & Hrun & Ht2 & Hp2 & _).
  { right. exists (mkThreadData true (value d)). simpl. by rewrite lookup_insert_eq. }
  { apply rank_le_5. }
  remember (replicate 5 (WorkerStep id rnd)) as five.
  simpl. rewrite Hk. unfold join. simpl runningThreads. rewrite Hk'.
  destruct (id =? 0) eqn:E; [by apply Z.eqb_eq in E|].
  fold s1. rewrite Hrun. simpl. rewrite Ht2, Hp2. simpl. eauto.
Qed.

Lemma one_worker_wf : pool_wf one_worker.
Proof.
  split.
  - intros [|i] [|j] tid Hi Hj _; simpl in *; done.
  - intros tid. simpl. rewrite list_elem_of_singleton.
    destruct (decide (tid = 7)) as [->|Hne].
    + rewrite lookup_singleton_eq. split; [done|eauto].
    + rewrite lookup_singleton_ne by done. split; [by intros [? ?]|tauto].
Qed.

(** ** [stopRunningThreads] *)

(** Joining the handle at [k] keeps the pool well formed. *)
Lemma reap_wf (s : State) (k : nat) (tid : Z) :
  pool_wf s -> runningThreads s !! k = Some tid -> tid <> 0 ->
  pool_wf (set_threads (delete tid (threads s))
             (set_runningThreads (<[k := 0]> (runningThreads s)) s)).
Proof.
  intros [Hdist Hthreads] Hk Hz.
  pose proof (lookup_lt_Some _ _ _ Hk) as Hlt. split; simpl.
  - intros i j t Hi Hj Ht.
    destruct (decide (i = k)) as [->|Hik].
    { rewrite list_lookup_insert_eq in Hi by done. congruence. }
    destruct (decide (j = k)) as [->|Hjk].
    { rewrite list_lookup_insert_eq in Hj by done. congruence. }
    rewrite list_lookup_insert_ne in Hi, Hj by done. by eapply Hdist.
  - intros j. split.
    + intros Hj. destruct (decide (j = tid)) as [->|Hne].
      { rewrite lookup_delete_eq in Hj. by destruct Hj. }
      rewrite lookup_delete_ne in Hj by done.
      apply Hthreads in Hj as [Hj0 [i Hi]%list_elem_of_lookup_1]. split; [done|].
      apply list_elem_of_lookup_2 with i. rewrite list_lookup_insert_ne; [done|].
      intros ->. congruence.
    + intros [Hj0 [i Hi]%list_elem_of_lookup_1].
      destruct (decide (i = k)) as [->|Hik].
      { rewrite list_lookup_insert_eq in Hi by done. congruence. }
      rewrite list_lookup_insert_ne in Hi by done.
      assert (j <> tid) as Hne.
      { intros ->. apply Hik. by eapply Hdist. }
      rewrite lookup_delete_ne by done. apply Hthreads. split; [done|].
      by eapply list_elem_of_lookup_2.
Qed.

(** The loop of [stopRunningThreads], when it returns, has joined every
    handle it went over. *)
Lemma join_from_joins (n : nat) : forall k schs s s',
  join_from k n schs s = Done s' ->
  pool_wf s -> length (runningThreads s) = (k + n)%nat ->
  (forall j, (j < k)%nat -> runningThreads s !! j = Some 0) ->
  pool_wf s' /\ length (runningThreads s') = (k + n)%nat
  /\ (forall j, (j < k + n)%nat -> runningThreads s' !! j = Some 0).
Proof.
  induction n as [|n IH]; intros k schs s s' H Hwf Hlen Hzero; simpl in H.
  - simplify_eq. rewrite Nat.add_0_r in *. done.
  - apply bind_Done in H as (s1 & Hjoin & Hrest).
    apply join_Done in Hjoin as (tid & s0 & t & Hk & Hz & Hrun & _ & _ & ->).
    pose proof (run_events_locked_handles _ _ _ Hrun) as Hl.
    pose proof (run_events_wf _ _ _ _ Hrun Hwf) as Hwf0.
    rewrite <- Hl in Hk.
    pose proof (lookup_lt_Some _ _ _ Hk) as Hlt.
    apply IH in Hrest as (Hwf' & Hlen' & Hzero').
    + split; [done|]. split; [lia|]. intros j Hj. apply Hzero'. lia.
    + by apply reap_wf.
    + simpl. rewrite length_insert, Hl. lia.
    + simpl. intros j Hj. destruct (decide (j = k)) as [->|Hne].
      * by rewrite list_lookup_insert_eq.
      * rewrite list_lookup_insert_ne by done. rewrite Hl. apply Hzero. lia.
Qed.

Lemma all_joined_no_thread (s : State) :
  pool_wf s -> Forall (fun h => h = 0) (runningThreads s) -> threads s = ∅.
Proof.
  intros [_ Hthreads] Hall. apply map_eq. intros tid. rewrite lookup_empty.
  apply eq_None_not_Some. intros [Hz Hin]%Hthreads.
  rewrite Forall_forall in Hall. by apply Hall in Hin.
Qed.

(** The loop of [stopRunningThreads] returns when each joined worker is
    given five steps: the shutdown flag is set and every worker has its
    record or is about to insert it. *)
Lemma join_from_returns (n : nat) : forall k s,
  programFinished s = true -> pool_wf s -> all_registered s ->
  length (runningThreads s) = (k + n)%nat ->
  (forall j tid, (k <= j)%nat -> runningThreads s !! j = Some tid -> tid <> 0) ->
  exists s', join_from k n (five_steps <$> drop k (runningThreads s)) s = Done s'.
Proof.
  induction n as [|n IH]; intros k s Hfin Hwf Hreg Hlen Hnz; simpl.
  - by exists s.
  - destruct (lookup_lt_is_Some_2 (runningThreads s) k) as [tid Hk]; [lia|].
    pose proof (Hnz k tid (Nat.le_refl k) Hk) as Hz.
    destruct (proj2 (proj2 Hwf tid)) as [t Ht].
    { split; [done|]. by eapply list_elem_of_lookup_2. }
    destruct (worker_finishes true tid 0 5 s t Ht)
      as (s1 & t1 & Hrun & Ht1 & Hp1 & Hfin1 & Hl1 & Hdom1 & Hth1 & Hda1).
    { left. split; [done|]. by apply Hreg. }
    { apply rank_le_5. }
    rewrite (drop_S _ _ _ Hk), fmap_cons. cbn [hd tl]. unfold join. rewrite Hk.
    destruct (tid =? 0) eqn:E; [by apply Z.eqb_eq in E|].
    change (five_steps tid) with (replicate 5 (WorkerStep tid 0)). rewrite Hrun. cbn [mbind outcome_bind].
    rewrite Ht1, Hp1. cbn [mbind outcome_bind].
    set (s2 := set_threads _ _).
    assert (drop (S k) (runningThreads s) = drop (S k) (runningThreads s2)) as Hdrop.
    { subst s2. simpl. rewrite Hl1. by rewrite drop_insert_lt by lia. }
    rewrite Hdrop. apply IH.
    + subst s2. simpl. congruence.
    + subst s2. apply reap_wf; [|by rewrite Hl1|done].
      eapply run_events_wf; done.
    + subst s2. intros j tj. simpl. intros Hj.
      destruct (decide (j = tid)) as [->|Hne]; [by rewrite lookup_delete_eq in Hj|].
      rewrite lookup_delete_ne in Hj by done. rewrite Hth1 in Hj by done.
      rewrite Hda1 by done. by apply Hreg.
    + subst s2. simpl. rewrite length_insert, Hl1. lia.
    + subst s2. simpl. intros j tj Hj. rewrite list_lookup_insert_ne by lia.
      rewrite Hl1. apply Hnz. lia.
Qed.

Lemma invokeCommand_stop (env : environment) (s : State) :
  invokeCommand "stop" env s
  = run_events false (before_lock env) (set_programFinished true s)
      ≫= stopRunningThreads (during_joins env).
Proof. reflexivity. Qed.

(** C2, as the code has it: [stop] sets the shutdown flag and then joins
    every handle of [runningThreads]; once it has returned every thread
    has been joined, so no worker runs any more.  Nothing is cleared: each
    handle stays in [runningThreads] as a handle that is no longer
    joinable, and each record stays in [threadsData] with its flag.
    [stop] returns when each worker is given its steps. *)
Theorem stop_joins_every_worker (env : environment) (s : State) :
  pool_wf s ->
  (forall s', invokeCommand "stop" env s = Done s' ->
     programFinished s' = true
     /\ threads s' = ∅
     /\ Forall (fun h => h = 0) (runningThreads s')
     /\ (length (runningThreads s) <= length (runningThreads s'))%nat
     /\ (forall id d, threadsData s !! id = Some d ->
           exists d', threadsData s' !! id = Some d' /\ killed d' = killed d))
  /\ (0 ∉ runningThreads s -> all_registered s ->
      exists s', invokeCommand "stop" (stop_environment s) s = Done s').
Proof.
  intros Hwf. split.
  - intros s' Hrun. rewrite invokeCommand_stop in Hrun.
    apply bind_Done in Hrun as (s1 & Hev & Hjoin).
    assert (pool_wf (set_programFinished true s)) as Hwf0 by done.
    pose proof (run_events_wf _ _ _ _ Hev Hwf0) as Hwf1.
    pose proof (run_events_flag _ _ _ _ Hev) as Hfin1.
    pose proof (run_events_flags _ _ _ _ Hev) as Hflags1.
    pose proof (run_events_handles _ _ _ _ Hev) as [Hpre _].
    unfold stopRunningThreads in Hjoin.
    pose proof (join_from_flags _ _ _ _ _ Hjoin) as [Hflags2 Hfin2].
    apply join_from_joins in Hjoin as (Hwf' & Hlen' & Hzero); [|done|done|lia].
    assert (Forall (fun h => h = 0) (runningThreads s')) as Hall.
    { apply Forall_lookup. intros j h Hj.
      pose proof (lookup_lt_Some _ _ _ Hj) as Hlt.
      rewrite Hzero in Hj by lia. congruence. }
    split_and!.
    + simpl in *. congruence.
    + by apply all_joined_no_thread.
    + done.
    + apply prefix_length in Hpre. simpl in *. lia.
    + apply (flags_kept_trans s (set_programFinished true s) s').
      * by apply flags_kept_same.
      * by eapply flags_kept_trans.
  - intros Hnz Hreg. rewrite invokeCommand_stop. simpl.
    unfold stopRunningThreads. simpl.
    apply (join_from_returns (length (runningThreads s)) 0 (set_programFinished true s));
      try done.
    intros j tid _ Hj ->. apply Hnz. by eapply list_elem_of_lookup_2.
Qed.

Lemma stop_joins_every_worker_witness :
  exists s', invokeCommand "stop" (stop_environment one_worker) one_worker = Done s'
    /\ programFinished s' = true
    /\ threads s' = ∅
    /\ Forall (fun h => h = 0) (runningThreads s')
    /\ (length (runningThreads one_worker) <= length (runningThreads s'))%nat
    /\ (forall id d, threadsData one_worker !! id = Some d ->
          exists d', threadsData s' !! id = Some d' /\ killed d' = killed d).
Proof.
  eexists. split; [reflexivity|].
  apply (proj1 (stop_joins_every_worker (stop_environment one_worker) one_worker
                  one_worker_wf)).
  reflexivity.
Defined.

(** C2 as stated fails: after [stop] the handle of the worker is still in
    [runningThreads] and its record is still in [threadsData], and a
    report would not show zero workers: it would end in an uncaught
    [std::out_of_range]. *)
Lemma stop_clears_nothing :
  exists s', invokeCommand "stop" (stop_environment one_worker) one_worker = Done s'
    /\ runningThreads s' = [0]
    /\ threadsData s' !! 7 = Some (mkThreadData false 101)
    /\ printThreadsInfo s' = Terminate out_of_range.
Proof. eexists. split; [reflexivity|]. by vm_compute. Qed.

(** ** Start-up: [parseCommandLine] and [main] *)

Lemma convert_accepted (v : string) (n : Z) :
  convertArgumentToPositiveInteger v = inr n <-> stoi v = inr n /\ 0 <= n.
Proof.
  unfold convertArgumentToPositiveInteger.
  destruct (stoi v) as [e|m]; [split; [done|by intros [? _]]|].
  destruct (m <? 0) eqn:E.
  - apply Z.ltb_lt in E. split; [done|]. intros [[= ->] ?]. lia.
  - apply Z.ltb_ge in E. split; [intros [= ->]; done|]. by intros [[= ->] _].
Qed.

Lemma convert_error (v : string) (e : exn) :
  convertArgumentToPositiveInteger v = inl e ->
  e = invalid_argument \/ e = out_of_range
  \/ e = logic_error "Parameter value must be a positive integer number".
Proof.
  unfold convertArgumentToPositiveInteger, stoi.
  destruct (read_sign _) as [negative body].
  destruct (take_digits body); [naive_solver|].
  destruct (in_int _); [|naive_solver].
  destruct (_ <? 0); naive_solver.
Qed.

Lemma not_accepted_value (v : string) :
  ~ accepted_value v <->
  (exists e, stoi v = inl e) \/ (exists n, stoi v = inr n /\ n < 0).
Proof.
  unfold accepted_value. destruct (stoi v) as [e|n]; split.
  - eauto.
  - intros _ (n & ? & _). done.
  - intros H. right. exists n. split; [done|].
    destruct (decide (0 <= n)); [|lia]. exfalso. eauto.
  - intros [[e ?]|(m & [= <-] & ?)] (m' & [= <-] & ?); [done|lia].
Qed.

Lemma option_name_not_value (name : string) :
  name = CommandLineParameter_Threads \/ name = CommandLineParameter_Delay ->
  ~ accepted_value name.
Proof. intros [-> | ->] (n & H & _); discriminate H. Qed.

Lemma parse_loop_accepted (args : list string) :
  accepted_args args -> forall n d, exists n' d', parse_loop args n d = inr (n', d').
Proof.
  induction 1 as [|v rest (m & Hv & Hm) _ IH|v rest (m & Hv & Hm) _ IH]; intros n d.
  - by exists n, d.
  - simpl. rewrite (proj2 (convert_accepted v m) (conj Hv Hm)). apply IH.
  - simpl. rewrite (proj2 (convert_accepted v m) (conj Hv Hm)). apply IH.
Qed.

Lemma parse_loop_result (fuel : nat) : forall args n d,
  (length args <= fuel)%nat ->
  match parse_loop args n d with
  | inr (n', d') => accepted_args args /\ (0 <= n -> 0 <= d -> 0 <= n' /\ 0 <= d')
  | inl e => e <> system_error /\ e <> logic_error ""
  end.
Proof.
  induction fuel as [|fuel IH]; intros args n d Hlen.
  - destruct args; [|simpl in Hlen; lia]. simpl. split; [constructor|done].
  - destruct args as [|argument [|v rest]]; simpl.
    + split; [constructor|done].
    + split; [done|]. destruct argument; done.
    + destruct (String.eqb argument CommandLineParameter_Threads) eqn:Ethreads.
      { apply String.eqb_eq in Ethreads as ->.
        destruct (convertArgumentToPositiveInteger v) as [e|m] eqn:Hv.
        - apply convert_error in Hv as [->|[->| ->]]; done.
        - apply convert_accepted in Hv as [Hv Hm].
          specialize (IH rest m d ltac:(simpl in Hlen; lia)).
          destruct (parse_loop rest m d) as [e|[n' d']]; [done|].
          destruct IH as [Hacc Hpos]. split; [|auto].
          constructor; [by exists m|done]. }
      destruct (String.eqb argument CommandLineParameter_Delay) eqn:Edelay.
      { apply String.eqb_eq in Edelay as ->.
        destruct (convertArgumentToPositiveInteger v) as [e|m] eqn:Hv.
        - apply convert_error in Hv as [->|[->| ->]]; done.
        - apply convert_accepted in Hv as [Hv Hm].
          specialize (IH rest n m ltac:(simpl in Hlen; lia)).
          destruct (parse_loop rest n m) as [e|[n' d']]; [done|].
          destruct IH as [Hacc Hpos]. split; [|auto].
          constructor; [by exists m|done]. }
      split; [done|]. destruct argument; done.
Qed.

(** [parseCommandLine] accepts exactly the command lines of
    [accepted_args]; every other one ends in [exit(1)] with a message. *)
Lemma parseCommandLine_result (hw : Z) (args : list string) :
  0 <= hw ->
  match parseCommandLine hw args with
  | Configured n d => accepted_args args /\ 0 <= n /\ 0 <= d
  | Exit code message => ~ accepted_args args /\ code = 1 /\ message <> ""
  end.
Proof.
  intros Hhw. unfold parseCommandLine.
  pose proof (parse_loop_result (length args) args hw 1 (Nat.le_refl _)) as H.
  destruct (parse_loop args hw 1) as [e|[n d]] eqn:Hparse.
  - assert (~ accepted_args args) as Hnot.
    { intros Hacc. destruct (parse_loop_accepted args Hacc hw 1) as (n & d & Hok).
      congruence. }
    destruct H as [Hsys Hwhat].
    destruct e as [| |what|]; split_and!; try done. congruence.
  - destruct H as [Hacc Hpos]. split; [done|]. apply Hpos; lia.
Qed.

(** A value that is not accepted, after [--threads] or [--delay]
    anywhere on the command line, makes the command line one that is not
    accepted. *)
Lemma bad_value_not_accepted (before : list string) : forall name v after,
  name = CommandLineParameter_Threads \/ name = CommandLineParameter_Delay ->
  ~ accepted_value v -> ~ accepted_args (before ++ name :: v :: after).
Proof.
  remember (length before) as m eqn:Hm. revert before Hm.
  induction m as [m IH] using lt_wf_ind.
  intros [|x [|y before]] Hm name v after Hname Hv Hacc; simpl in Hacc.
  - inversion Hacc; by subst.
  - apply (option_name_not_value name Hname). inversion Hacc; by subst.
  - apply (IH (length before) ltac:(simpl in Hm; lia) before eq_refl name v after Hname Hv).
    inversion Hacc; by subst.
Qed.

Lemma listen_ends_by_stop (input : list turn) : forall s s',
  listenToCommandLine input s = Done s' ->
  programFinished s' = true
  /\ (programFinished s = false ->
      exists t, t ∈ input /\ (parseCommand (typed t)).1 = ConsoleCommand_Stop).
Proof.
  induction input as [|t rest IH]; intros s s' H; simpl in H.
  - destruct (programFinished s) eqn:Hfin; [|done]. simplify_eq. done.
  - destruct (programFinished s) eqn:Hfin; [by simplify_eq|].
    apply bind_Done in H as (s1 & Hbg & H).
    apply bind_Done in H as (s2 & Hcmd & H).
    apply IH in H as [Hend Hstop]. split; [done|]. intros _.
    apply run_events_flag in Hbg.
    apply invokeCommand_flags in Hcmd as [_ [Hsame|[Hcmd _]]].
    + destruct Hstop as (t' & Hin & Ht'); [congruence|].
      exists t'. split; [by right|done].
    + exists t. split; [by left|done].
Qed.

Lemma main_stop_at_once (hw : Z) (args : list string) (n d : Z) :
  parseCommandLine hw args = Configured n d ->
  main hw args stop_at_once launcher_ends
  = Done (Exited 0, [Text "Thread initializer thread started.";
                     Text "Thread initializer thread finished."]).
Proof.
  intros Hparse. unfold main. rewrite Hparse. simpl.
  unfold launcher_step at 2. simpl. rewrite andb_false_r. simpl. done.
Qed.

(** X15: what [parseCommandLine] does with every command line.  A
    command line is accepted when it is made of [--threads] and
    [--delay], each followed by text in which [std::stoi] finds an [int]
    that is not negative.  Every other command line (a value in which
    [std::stoi] finds no number, or a negative one, or one beyond [int],
    an unknown option, an option with no value) makes the program print a
    message and exit with code 1, whatever is typed.  A process started
    with an accepted command line that comes to its end has had [stop]
    typed, and ends with code 0 or in [std::terminate]; with [stop] typed
    at once it ends with code 0. *)
Theorem startup_and_exit_code (hw : Z) (args : list string) :
  0 <= hw ->
  (accepted_args args ->
     exists n d, parseCommandLine hw args = Configured n d /\ 0 <= n /\ 0 <= d)
  /\ (~ accepted_args args ->
     exists message, parseCommandLine hw args = Exit 1 message /\ message <> "")
  /\ (forall before name v after,
        args = before ++ name :: v :: after ->
        name = CommandLineParameter_Threads \/ name = CommandLineParameter_Delay ->
        (exists e, stoi v = inl e) \/ (exists n, stoi v = inr n /\ n < 0) ->
        exists message, message <> "" /\
          forall input finale,
            main hw args input finale = Done (Exited 1, [Text message]))
  /\ (forall input finale status out,
        main hw args input finale = Done (status, out) ->
        (~ accepted_args args /\ status = Exited 1)
        \/ (accepted_args args /\ (status = Exited 0 \/ status = Aborted)
            /\ exists t, t ∈ input /\ (parseCommand (typed t)).1 = ConsoleCommand_Stop))
  /\ (accepted_args args ->
      exists out, main hw args stop_at_once launcher_ends = Done (Exited 0, out)).
Proof.
  intros Hhw. pose proof (parseCommandLine_result hw args Hhw) as Hres.
  split_and!.
  - intros Hacc. destruct (parseCommandLine hw args) as [n d|code message].
    + exists n, d. by destruct Hres as (_ & ? & ?).
    + by destruct Hres.
  - intros Hnot. destruct (parseCommandLine hw args) as [n d|code message].
    + by destruct Hres.
    + destruct Hres as (_ & -> & Hmsg). eauto.
  - intros before name v after -> Hname Hv%not_accepted_value.
    pose proof (bad_value_not_accepted before name v after Hname Hv) as Hnot.
    unfold main. destruct (parseCommandLine hw _) as [n d|code message].
    + by destruct Hres.
    + destruct Hres as (_ & -> & Hmsg). eauto.
  - intros input finale status out. unfold main.
    destruct (parseCommandLine hw args) as [n d|code' message].
    + destruct Hres as (Hacc & _). intros H.
      apply bind_Done in H as (s1 & Hlisten & H).
      apply bind_Done in H as (s2 & _ & H).
      destruct (launcher s2); try done. simplify_eq. right.
      apply listen_ends_by_stop in Hlisten as [_ Hstop].
      split; [done|]. split; [|auto].
      unfold destroy_statics. destruct (forallb _ _); auto.
    + destruct Hres as (Hnot & -> & _). intros [= <- <-]. by left.
  - intros Hacc. destruct (parseCommandLine hw args) as [n d|code message] eqn:Hparse.
    + rewrite (main_stop_at_once hw args n d Hparse). eauto.
    + by destruct Hres.
Qed.

Lemma startup_and_exit_code_witness :
  exists message, message <> "" /\
    forall input finale,
      main 4 ["--threads"; "-1"] input finale = Done (Exited 1, [Text message]).
Proof.
  apply (proj1 (proj2 (proj2 (startup_and_exit_code 4 ["--threads"; "-1"]
                                ltac:(done))))
           [] "--threads" "-1" [] eq_refl (or_introl eq_refl)).
  right. exists (-1). split; [reflexivity|done].
Defined.

(** C8: a start-up value that is not a number is to be reported and to
    end the program with a code that is not 0, and a run ended by [stop]
    is to exit with code 0.  The code misses each in one case.

    [parseCommandLine] has the check: the value [abc] is answered with
    "Value of an argument is not a number" and exit code 1.  But
    [std::stoi] stops reading at the first character that is no digit and
    reports nothing about the rest, so that [--threads 12abc], whose value
    is not the text of an integer, is taken as 12 workers.

    The launcher tests the shutdown flag before it starts a worker.  But
    when [stop] is typed while the launcher stands between that test and
    [startNewThread], the launcher starts its worker after
    [stopRunningThreads] has joined the others.  [main] joins the
    launcher and returns 0 with the handle of that worker joinable in
    [runningThreads]; the destruction of [runningThreads] then calls
    [std::terminate], and the process does not exit with code 0. *)
Theorem startup_check_and_exit_code_miss :
  parseCommandLine 4 ["--threads"; "abc"]
    = Exit 1 "Value of an argument is not a number"
  /\ integer_text "12abc" = None
  /\ parseCommandLine 4 ["--threads"; "12abc"] = Configured 12 1
  /\ (exists out,
        main 4 ["--threads"; "12abc"] stop_at_once launcher_ends
        = Done (Exited 0, out))
  /\ parseCommandLine 4 ["--threads"; "1"] = Configured 1 1
  /\ (exists s,
        listenToCommandLine stop_before_spawn (initial_state 1)
          ≫= run_events false late_spawn = Done s
        /\ programFinished s = true /\ launcher s = LauncherFinished
        /\ runningThreads s = [9]
        /\ threads s !! 9 = Some (mkThread None 0 Registering))
  /\ main 4 ["--threads"; "1"] stop_before_spawn late_spawn
     = Done (Aborted, [Text "Thread initializer thread started.";
                       Text "Thread initializer thread finished."]).
Proof.
  split; [reflexivity|]. split; [reflexivity|]. split; [reflexivity|].
  split; [eexists; vm_compute; reflexivity|]. split; [reflexivity|].
  split; [|vm_compute; reflexivity].
  eexists. split; [vm_compute; reflexivity|]. by vm_compute.
Qed.

(** ** The pool in the states of a run *)

Lemma run_events_appended (locked : bool) (sch : list event) : forall s s',
  run_events locked sch s = Done s' ->
  exists new, runningThreads s' = runningThreads s ++ new
    /\ Forall (fun h => h <> 0) new.
Proof.
  induction sch as [|e sch IH]; intros s s' H; simpl in H.
  - simplify_eq. exists []. by rewrite app_nil_r.
  - apply bind_Done in H as (s1 & H1 & H2).
    apply IH in H2 as (new & Hl & Hnz).
    apply do_event_effect in H1 as (_ & _ & _ & [[Hl1 _]|Hspawn]).
    + exists new. by rewrite Hl, Hl1.
    + destruct Hspawn as (tid & _ & _ & Hz & _ & Hl1 & _).
      exists (tid :: new). split; [|by constructor].
      by rewrite Hl, Hl1, <- app_assoc.
Qed.

Lemma run_events_joinable (locked : bool) (sch : list event) (s s' : State) :
  run_events locked sch s = Done s' ->
  0 ∉ runningThreads s -> 0 ∉ runningThreads s'.
Proof.
  intros (new & -> & Hnz)%run_events_appended Hnot.
  rewrite elem_of_app. intros [?|Hin]; [done|].
  rewrite Forall_forall in Hnz. by apply Hnz in Hin.
Qed.

(** Erasing a handle that was joined keeps the pool well formed. *)
Lemma erase_wf (s : State) (k : nat) :
  pool_wf s -> runningThreads s !! k = Some 0 ->
  pool_wf (set_runningThreads (delete k (runningThreads s)) s).
Proof.
  intros [Hdist Hthreads] Hk. split; simpl.
  - intros i j tid Hi Hj Hz.
    rewrite list_lookup_delete in Hi, Hj.
    destruct (decide (i < k)%nat), (decide (j < k)%nat);
      pose proof (Hdist _ _ _ Hi Hj Hz); lia.
  - intros tid. rewrite Hthreads. split; intros [Hz Hin]; (split; [done|]).
    + apply list_elem_of_lookup_1 in Hin as [i Hi].
      assert (i <> k) by (intros ->; congruence).
      destruct (decide (i < k)%nat).
      * apply list_elem_of_lookup_2 with i. by rewrite list_lookup_delete_lt.
      * apply list_elem_of_lookup_2 with (i - 1)%nat.
        rewrite list_lookup_delete_ge by lia. by replace (S (i - 1)) with i by lia.
    + by eapply list_elem_of_delete_inv.
Qed.

Lemma killThread_wf (id : Z) (sa sj sb : list event) (s s' : State) :
  pool_wf s -> 0 ∉ runningThreads s ->
  killThread id sa sj sb s = Done s' ->
  pool_wf s' /\ 0 ∉ runningThreads s'.
Proof.
  intros Hwf Hnz Hrun.
  destruct (threadsData s !! id) as [d|] eqn:Hd.
  2:{ rewrite (killThread_unknown _ _ _ _ _ Hd) in Hrun. by simplify_eq. }
  destruct (killThread_Done _ _ _ _ _ _ d Hd Hrun)
    as (s2 & k & s3 & s4 & H2 & Hk & H3 & H4 & ->).
  apply find_handle_Some in Hk.
  apply join_Done in H3 as (tid & s2' & t & Hk' & Hz & Hj & _ & _ & ->).
  pose proof (run_events_wf _ _ _ _ H2 (set_threadsData_wf _ _ Hwf)) as Hwf2.
  pose proof (run_events_joinable _ _ _ _ H2 Hnz) as Hnz2.
  pose proof (run_events_wf _ _ _ _ Hj Hwf2) as Hwf2'.
  pose proof (run_events_joinable _ _ _ _ Hj Hnz2) as Hnz2'.
  pose proof (run_events_handles _ _ _ _ Hj) as [Hpre _].
  pose proof (prefix_lookup_Some _ _ _ _ Hk' Hpre) as Hk2.
  pose proof (lookup_lt_Some _ _ _ Hk2) as Hlt.
  pose proof (reap_wf s2' k tid Hwf2' Hk2 Hz) as Hwf3.
  pose proof (run_events_wf _ _ _ _ H4 Hwf3) as Hwf4.
  destruct (run_events_appended _ _ _ _ H4) as (new & Hl4 & Hnew). simpl in Hl4.
  assert (runningThreads s4 !! k = Some 0) as Hk4.
  { rewrite Hl4, lookup_app_l by (by rewrite length_insert).
    by rewrite list_lookup_insert_eq. }
  split; simpl.
  - apply (erase_wf (set_threadsData (delete id (threadsData s4)) s4)); [|done].
    by apply set_threadsData_wf.
  - intros [i Hi]%list_elem_of_lookup_1. rewrite list_lookup_delete in Hi.
    assert (forall j, runningThreads s4 !! j = Some 0 -> j = k) as Honly.
    { intros j Hj'. rewrite Hl4 in Hj'.
      apply lookup_app_Some in Hj' as [Hj'|[_ Hj']].
      - destruct (decide (j = k)) as [->|Hne]; [done|].
        rewrite list_lookup_insert_ne in Hj' by done.
        exfalso. apply Hnz2'. by eapply list_elem_of_lookup_2.
      - rewrite Forall_forall in Hnew. exfalso.
        by apply (Hnew 0); [eapply list_elem_of_lookup_2|]. }
    destruct (decide (i < k)%nat); apply Honly in Hi; lia.
Qed.

Lemma startNewThread_wf (tid : Z) (init : option Z) (s s' : State) :
  pool_wf s -> 0 ∉ runningThreads s ->
  startNewThread tid init s = Done s' ->
  pool_wf s' /\ 0 ∉ runningThreads s'.
Proof.
  intros [Hdist Hthreads] Hnz (Hz & Hfree & ->)%startNewThread_Done.
  assert (tid ∉ runningThreads s) as Hnotin.
  { intros Hin. destruct (proj2 (Hthreads tid) (conj Hz Hin)) as [x Hx]. congruence. }
  split; [split|]; simpl.
  - by apply handles_distinct_snoc.
  - intros j. rewrite elem_of_app, list_elem_of_singleton.
    destruct (decide (j = tid)) as [->|Hne].
    + rewrite lookup_insert_eq. split; [auto|eauto].
    + rewrite lookup_insert_ne by done. rewrite Hthreads. tauto.
  - rewrite elem_of_app, list_elem_of_singleton. intros [?|?]; [done|congruence].
Qed.

(** A command keeps the pool well formed; unless it is [stop], every
    handle is joinable after it as it was before. *)
Lemma invokeCommand_wf (line : string) (env : environment) (s s' : State) :
  pool_wf s -> 0 ∉ runningThreads s ->
  invokeCommand line env s = Done s' ->
  pool_wf s' /\ (0 ∉ runningThreads s' \/ programFinished s' = true).
Proof.
  intros Hwf Hnz. unfold invokeCommand.
  destruct (parseCommand line) as [command arguments].
  intros Hrun. repeat case_match; simplify_eq.
  - apply print_info_frame in Hrun as (_ & Hl & Ht & _).
    unfold pool_wf. rewrite Hl, Ht. auto.
  - apply startNewThread_wf in Hrun as [? ?]; auto.
  - apply startNewThread_wf in Hrun as [? ?]; auto.
  - auto.
  - apply killThread_wf in Hrun as [? ?]; auto.
  - auto.
  - unfold resetThread. destruct (threadsData s !! _); auto.
  - unfold resetThread. destruct (threadsData s !! _); auto.
  - apply bind_Done in Hrun as (s1 & Hev & Hjoin).
    pose proof (run_events_wf _ _ _ _ Hev ltac:(done)) as Hwf1.
    pose proof (run_events_flag _ _ _ _ Hev) as Hfin1.
    pose proof (join_from_flags _ _ _ _ _ Hjoin) as [_ Hfin2].
    apply join_from_joins in Hjoin as (Hwf' & _); [|done|done|lia].
    split; [done|]. right. simpl in *. congruence.
  - auto.
Qed.

(** X1: in every state of a run the handles of [runningThreads] that are
    joinable denote distinct threads, which are exactly the threads that
    were started and not joined, and until [stop] every handle is
    joinable. *)
Theorem reachable_wf (s : State) :
  reachable s ->
  pool_wf s /\ (0 ∉ runningThreads s \/ programFinished s = true).
Proof.
  induction 1 as [n|e s s' _ [Hwf Hnz] Hstep|line env s s' _ [Hwf Hnz] Hfin Hcmd].
  - split; [split|left]; simpl.
    + intros i j tid Hi. by rewrite lookup_nil in Hi.
    + intros tid. rewrite lookup_empty, elem_of_nil. split; [by intros [? ?]|tauto].
    + apply not_elem_of_nil.
  - split; [by eapply do_event_wf|].
    pose proof (do_event_effect _ _ _ _ Hstep) as (_ & Hfin & _).
    destruct Hnz as [Hnz|Hnz]; [left|right; congruence].
    apply (run_events_joinable false [e] s s'); [|done]. simpl. by rewrite Hstep.
  - destruct Hnz as [Hnz|Hnz]; [|congruence].
    by eapply invokeCommand_wf.
Qed.

Lemma reachable_wf_witness :
  pool_wf just_started
  /\ (0 ∉ runningThreads just_started \/ programFinished just_started = true).
Proof.
  apply (reachable_wf just_started).
  apply (reachable_command "new 100" (quiet 7) (initial_state 0) just_started
           (reachable_start 0) eq_refl eq_refl).
Defined.

(** ** When a thread id is used again *)

(** C5: a worker that finds no record under its id is to stop.  The code
    does not do so.  In the run [after_reuse] the operating system gives
    the id of the worker joined by [killThread] to the worker the launcher
    starts next, before [killThread] erases the record: the new worker's
    insertion finds the old record in place, [killThread] erases it and
    returns with a handle of that id in [runningThreads], and the new
    worker ends the process with an uncaught [std::out_of_range] at its
    first tick.  (The theorems on [killThread] assume that the id is not
    given again in that window.) *)
Theorem reused_id_loses_record :
  (exists s', after_reuse = Done s'
     /\ runningThreads s' = [7] /\ threadsData s' = ∅
     /\ (at_position <$> threads s' !! 7) = Some Announcing)
  /\ after_reuse ≫= run_events false [WorkerStep 7 0; WorkerStep 7 0; WorkerStep 7 0]
     = Terminate out_of_range.
Proof.
  split; [|vm_compute; reflexivity].
  eexists. split; [vm_compute; reflexivity|]. by vm_compute.
Qed.

Lemma reachable_run_events (sch : list event) : forall s s',
  reachable s -> run_events false sch s = Done s' -> reachable s'.
Proof.
  induction sch as [|e sch IH]; intros s s' Hs Hrun; simpl in Hrun.
  - by simplify_eq.
  - apply bind_Done in Hrun as (s1 & H1 & H2).
    eapply IH; [|done]. by eapply reachable_event.
Qed.

Lemma initial_state_wf (numberOfThreads : Z) : pool_wf (initial_state numberOfThreads).
Proof.
  split; simpl.
  - intros i j tid Hi. by rewrite lookup_nil in Hi.
  - intros tid. rewrite lookup_empty, elem_of_nil. split; [by intros [? ?]|tauto].
Qed.

(** C1: once [killThread] has returned, the id is to be in neither
    [threadsData] nor [runningThreads], and absent from what
    [printThreadsInfo] prints.  The code does not ensure it.
    [killThread] gives up both locks between the [join] and the last
    guarded block, and there it erases the record by the id, not by the
    thread it has joined, while it erases the handle by the iterator.  In
    the state [before_kill] of a run worker [7] is in its loop and has its
    record; [kill 7] marks and joins it; before the last block the launcher starts
    its second worker, to which the operating system gives the id [7]
    again, and whose [threadsData.insert] finds the old record and does
    nothing.  [killThread] then erases that record and the old handle and
    returns: a handle with id [7] is in [runningThreads], its thread is
    running, no record is under [7], and [printThreadsInfo] ends in an
    uncaught [std::out_of_range]. *)
Theorem kill_returns_with_id_in_pool :
  run_events false first_worker_runs (initial_state 2) = Done before_kill
  /\ reachable before_kill /\ pool_wf before_kill
  /\ runningThreads before_kill = [7]
  /\ threads before_kill !! 7 = Some (mkThread None 5 Sleeping)
  /\ threadsData before_kill !! 7 = Some (mkThreadData false 5)
  /\ invokeCommand "kill 7" reuse_during_kill before_kill = Done killed_and_reused
  /\ reachable killed_and_reused
  /\ runningThreads killed_and_reused = [7]
  /\ threads killed_and_reused !! 7 = Some (mkThread None 9 Announcing)
  /\ threadsData killed_and_reused !! 7 = None
  /\ printThreadsInfo killed_and_reused = Terminate out_of_range.
Proof.
  assert (run_events false first_worker_runs (initial_state 2) = Done before_kill)
    as Hs by (vm_compute; reflexivity).
  assert (invokeCommand "kill 7" reuse_during_kill before_kill = Done killed_and_reused)
    as Hs' by (vm_compute; reflexivity).
  pose proof (reachable_run_events _ _ _ (reachable_start 2) Hs) as Hreach.
  split; [done|]. split; [done|].
  split; [exact (run_events_wf _ _ _ _ Hs (initial_state_wf 2))|].
  do 3 (split; [reflexivity|]). split; [done|].
  split; [exact (reachable_command _ _ _ _ Hreach eq_refl Hs')|].
  by vm_compute.
Qed.

(** * Further properties of the code *)

(** ** [parseCommand] *)

Lemma append_cons (x : ascii) (a b : string) :
  (String x a ++ b)%string = String x (a ++ b)%string.
Proof. reflexivity. Qed.

Lemma append_nil_l (b : string) : ("" ++ b)%string = b.
Proof. reflexivity. Qed.

Lemma append_assoc (a b c : string) : ((a ++ b) ++ c)%string = (a ++ (b ++ c))%string.
Proof.
  induction a as [|x a IH]; [done|]. rewrite !append_cons. by rewrite IH.
Qed.

Lemma append_empty_r (a : string) : (a ++ "")%string = a.
Proof. induction a as [|x a IH]; [done|]. rewrite append_cons. by rewrite IH. Qed.

Lemma no_space_append (a b : string) :
  no_space (a ++ b) = no_space a && no_space b.
Proof.
  induction a as [|x a IH]; [done|]. rewrite append_cons. simpl. rewrite IH.
  by rewrite andb_assoc.
Qed.

(** Every word [split_words] gives is a word; [cur], the word being
    read, has no white space. *)
Lemma split_words_are_words (s : string) : forall cur,
  no_space cur = true -> Forall (fun w => is_word w = true) (split_words cur s).
Proof.
  induction s as [|c rest IH]; intros cur Hcur; simpl.
  - destruct (String.eqb cur "") eqn:E; [constructor|].
    constructor; [|constructor]. unfold is_word. by rewrite E, Hcur.
  - destruct (isspace c) eqn:Hc.
    + destruct (String.eqb cur "") eqn:E; [by apply IH|].
      constructor; [|by apply IH]. unfold is_word. by rewrite E, Hcur.
    + apply IH. rewrite no_space_append, Hcur. simpl. by rewrite Hc.
Qed.

(** Characters that are not white space are taken into the word. *)
Lemma split_words_take (w : string) : forall cur rest,
  no_space w = true ->
  split_words cur (w ++ rest) = split_words (cur ++ w) rest.
Proof.
  induction w as [|c w IH]; intros cur rest Hw.
  - by rewrite append_nil_l, append_empty_r.
  - simpl in Hw. apply andb_prop in Hw as [Hc Hw]. apply negb_true_iff in Hc.
    rewrite append_cons. simpl. rewrite Hc.
    rewrite IH by done. by rewrite append_assoc, append_cons, append_nil_l.
Qed.

Lemma split_words_on_one_line (words : list string) :
  Forall (fun w => is_word w = true) words ->
  split_words "" (on_one_line words) = words.
Proof.
  induction 1 as [|w words Hw _ IH]; [done|].
  unfold is_word in Hw. apply andb_prop in Hw as [Hne Hw].
  apply negb_true_iff in Hne.
  unfold on_one_line in *. destruct words as [|w' words].
  - simpl. rewrite <- (append_empty_r w) at 1.
    rewrite split_words_take by done. rewrite append_nil_l. simpl. by rewrite Hne.
  - change (String.concat " " (w :: w' :: words))
      with (w ++ String " " (String.concat " " (w' :: words)))%string.
    remember (String.concat " " (w' :: words)) as tail eqn:Htail.
    rewrite split_words_take by done. rewrite append_nil_l.
    simpl. rewrite Hne. by rewrite IH.
Qed.

Lemma split_words_blank (s : string) :
  blank s = true -> split_words "" s = [].
Proof.
  induction s as [|c s IH]; simpl; [done|].
  intros [Hc Hs]%andb_prop. rewrite Hc. simpl. by apply IH.
Qed.

(** X4: [parseCommand] splits a line at white space: the command and the
    arguments it returns are words (not empty, no white space in them),
    unless the line has no word, and then the command is the empty text
    and there is no argument.  A command and arguments that are words,
    written on one line with one space between them, are read back as they
    are. *)
Theorem parseCommand_round_trip (line command : string) (arguments : list string) :
  (parseCommand line = (command, arguments) ->
     (command = "" /\ arguments = [])
     \/ Forall (fun w => is_word w = true) (command :: arguments))
  /\ (Forall (fun w => is_word w = true) (command :: arguments) ->
     parseCommand (on_one_line (command :: arguments)) = (command, arguments)).
Proof.
  split.
  - unfold parseCommand.
    pose proof (split_words_are_words line "" eq_refl) as Hwords.
    destruct (split_words "" line) as [|c args]; intros [= <- <-]; auto.
  - intros Hwords. unfold parseCommand. by rewrite split_words_on_one_line.
Qed.

Lemma parseCommand_round_trip_witness :
  parseCommand (on_one_line ["reset"; "7"; "5"]) = ("reset", ["7"; "5"]).
Proof.
  apply (proj2 (parseCommand_round_trip "" "reset" ["7"; "5"])).
  repeat constructor.
Defined.

(** X5: a line with no word in it, empty or of white space only, is
    answered with "Unknown command." and changes nothing else. *)
Theorem blank_line_is_unknown (line : string) (env : environment) (s : State) :
  blank line = true ->
  parseCommand line = ("", [])
  /\ invokeCommand line env s = Done (print (Text "Unknown command.") s).
Proof.
  intros Hblank. unfold invokeCommand, parseCommand.
  by rewrite (split_words_blank line Hblank).
Qed.

Lemma blank_line_is_unknown_witness :
  parseCommand "  " = ("", [])
  /\ invokeCommand "  " (quiet 0) one_worker
     = Done (print (Text "Unknown command.") one_worker).
Proof. apply (blank_line_is_unknown "  " (quiet 0) one_worker). reflexivity. Defined.

(** ** Numbers as they are written and read *)

Lemma digit_char_value (d : Z) :
  0 <= d <= 9 -> digit_value (digit_char d) = Some d.
Proof.
  intros Hd.
  assert (d = 0 \/ d = 1 \/ d = 2 \/ d = 3 \/ d = 4 \/ d = 5 \/ d = 6 \/ d = 7
          \/ d = 8 \/ d = 9) as Hcases by lia.
  repeat (destruct Hcases as [->|Hcases]; [reflexivity|]). by subst.
Qed.

Lemma digits_of_range (fuel : nat) : forall n acc,
  0 <= n -> Forall (fun d => 0 <= d <= 9) acc ->
  Forall (fun d => 0 <= d <= 9) (digits_of fuel n acc).
Proof.
  induction fuel as [|fuel IH]; intros n acc Hn Hacc; simpl; [done|].
  destruct (n <? 10) eqn:E.
  - apply Z.ltb_lt in E. constructor; [lia|done].
  - apply IH; [apply Z.div_pos; lia|]. constructor; [|done].
    pose proof (Z.mod_pos_bound n 10). lia.
Qed.

Lemma digits_of_value (fuel : nat) : forall n acc,
  0 <= n < 10 ^ Z.of_nat fuel ->
  fold_left (fun a d => 10 * a + d) (digits_of fuel n acc) 0
  = fold_left (fun a d => 10 * a + d) acc n.
Proof.
  induction fuel as [|fuel IH]; intros n acc Hn.
  - simpl in *. by replace n with 0 by lia.
  - simpl digits_of. destruct (n <? 10) eqn:E; [done|].
    apply Z.ltb_ge in E. rewrite IH.
    + simpl. f_equal. pose proof (Z.div_mod n 10). lia.
    + rewrite Nat2Z.inj_succ, Z.pow_succ_r in Hn by lia.
      split; [apply Z.div_pos; lia|]. apply Z.div_lt_upper_bound; lia.
Qed.

Lemma digits_of_not_nil (fuel : nat) (n : Z) :
  digits_of (S fuel) n [] <> [].
Proof.
  assert (forall f m acc, acc <> [] -> digits_of f m acc <> []) as Hacc.
  { induction f as [|f IH]; intros m acc Hne; simpl; [done|].
    destruct (m <? 10); [done|]. by apply IH. }
  simpl. destruct (n <? 10); [done|]. by apply Hacc.
Qed.

Lemma decimal_value_digits_string (ds : list Z) : forall acc,
  Forall (fun d => 0 <= d <= 9) ds ->
  decimal_value acc (digits_string ds)
  = Some (fold_left (fun a d => 10 * a + d) ds acc).
Proof.
  induction ds as [|d ds IH]; intros acc Hds; simpl; [done|].
  apply Forall_cons in Hds as [Hd Hds]. rewrite (digit_char_value d Hd). by apply IH.
Qed.

Lemma digits_string_no_space (ds : list Z) :
  Forall (fun d => 0 <= d <= 9) ds -> no_space (digits_string ds) = true.
Proof.
  induction 1 as [|d ds Hd _ IH]; simpl; [done|].
  rewrite (digit_not_space _ d (digit_char_value d Hd)). by rewrite IH.
Qed.

Lemma digits_string_not_empty (ds : list Z) :
  ds <> [] -> String.eqb (digits_string ds) "" = false.
Proof. by destruct ds. Qed.

(** The numeral of an integer is the text of that integer, and a word. *)
Lemma decimal_integer_text (z : Z) :
  - 10 ^ 20 < z < 10 ^ 20 ->
  integer_text (decimal z) = Some z /\ is_word (decimal z) = true.
Proof.
  intros Hz. unfold decimal. destruct (z <? 0) eqn:Hneg.
  - apply Z.ltb_lt in Hneg.
    pose proof (digits_of_range 20 (- z) [] ltac:(lia) ltac:(constructor)) as Hrange.
    pose proof (digits_of_not_nil 19 (- z)) as Hne.
    pose proof (digits_of_value 20 (- z) [] ltac:(simpl; lia)) as Hval.
    split.
    + unfold integer_text. rewrite Ascii.eqb_refl.
      rewrite digits_string_not_empty by done.
      rewrite decimal_value_digits_string by done. rewrite Hval. simpl. f_equal. lia.
    + unfold is_word. remember (digits_string (digits_of 20 (- z) [])) as body.
      cbn. subst body. by rewrite digits_string_no_space.
  - apply Z.ltb_ge in Hneg.
    pose proof (digits_of_range 20 z [] ltac:(lia) ltac:(constructor)) as Hrange.
    pose proof (digits_of_not_nil 19 z) as Hne.
    pose proof (digits_of_value 20 z [] ltac:(simpl; lia)) as Hval.
    destruct (digits_of 20 z []) as [|d ds] eqn:Hds; [done|].
    pose proof (Forall_inv Hrange) as Hd. simpl in Hd.
    pose proof (digit_char_value d Hd) as Hchar.
    split.
    + unfold integer_text. simpl digits_string.
      destruct (digit_not_sign _ d Hchar) as [-> ->].
      change (String (digit_char d) (digits_string ds)) with (digits_string (d :: ds)).
      rewrite decimal_value_digits_string by done. by rewrite Hval.
    + unfold is_word. rewrite digits_string_not_empty by done.
      by rewrite digits_string_no_space.
Qed.

Lemma to_size_t_id (id : Z) : 0 <= id < 2 ^ 64 -> to_size_t id = id.
Proof. intros H. unfold to_size_t, SIZE_MOD. by apply Z.mod_small. Qed.

(** X6: a number in the range of [int], written in decimal as the
    program prints numbers, is read back by the console as that number:
    [kill n] calls [killThread] on the id [n] (on [n + 2^64] when [n] is
    negative), [reset n v] calls [resetThread n v], [reset n] resets to
    [0], and [new v] starts a thread with initial value [v]. *)
Theorem typed_numbers_are_read_back (n v : Z) (env : environment) (s : State) :
  in_int n = true -> in_int v = true ->
  stoi (decimal v) = inr v
  /\ invokeCommand (on_one_line ["kill"; decimal n]) env s
     = killThread (to_size_t n) (after_mark env) (during_join env) (before_erase env) s
  /\ invokeCommand (on_one_line ["reset"; decimal n; decimal v]) env s
     = Done (resetThread (to_size_t n) v s)
  /\ invokeCommand (on_one_line ["reset"; decimal n]) env s
     = Done (resetThread (to_size_t n) 0 s)
  /\ invokeCommand (on_one_line ["new"; decimal v]) env s
     = startNewThread (os_thread_id env) (Some v) s
  /\ (0 <= n -> to_size_t n = n).
Proof.
  intros Hn Hv.
  assert (forall z, in_int z = true -> - 10 ^ 20 < z < 10 ^ 20) as Hbound.
  { intros z Hz. unfold in_int, INT_MIN, INT_MAX in Hz.
    apply andb_prop in Hz as [?%Z.leb_le ?%Z.leb_le]. lia. }
  destruct (decimal_integer_text n (Hbound n Hn)) as [Htn Hwn].
  destruct (decimal_integer_text v (Hbound v Hv)) as [Htv Hwv].
  pose proof (stoi_integer_text _ _ Htn) as Hsn. rewrite Hn in Hsn.
  pose proof (stoi_integer_text _ _ Htv) as Hsv. rewrite Hv in Hsv.
  assert (forall c args, is_word c = true ->
            Forall (fun w => is_word w = true) args ->
            parseCommand (on_one_line (c :: args)) = (c, args)) as Hparse.
  { intros c args Hc Hargs. unfold parseCommand.
    rewrite split_words_on_one_line; [done|by constructor]. }
  split; [done|]. unfold invokeCommand. split_and!.
  - rewrite Hparse by (done || by repeat constructor). simpl.
    unfold stoi_at. simpl. by rewrite Hsn.
  - rewrite Hparse by (done || by repeat constructor). simpl.
    unfold stoi_at. simpl. by rewrite Hsn, Hsv.
  - rewrite Hparse by (done || by repeat constructor). simpl.
    unfold stoi_at. simpl. by rewrite Hsn.
  - rewrite Hparse by (done || by repeat constructor). simpl.
    unfold stoi_at. simpl. by rewrite Hsv.
  - intros Hpos. apply to_size_t_id. unfold in_int, INT_MAX in Hn.
    apply andb_prop in Hn as [_ ?%Z.leb_le]. lia.
Qed.

Lemma typed_numbers_are_read_back_witness :
  invokeCommand (on_one_line ["reset"; decimal 7; decimal (-5)]) (quiet 0) one_worker
  = Done (resetThread (to_size_t 7) (-5) one_worker).
Proof.
  apply (proj1 (proj2 (proj2
    (typed_numbers_are_read_back 7 (-5) (quiet 0) one_worker eq_refl eq_refl)))).
Defined.

Example decimal_of_int_max : decimal INT_MAX = "2147483647".
Proof. reflexivity. Qed.
Example decimal_negative : decimal (-40) = "-40".
Proof. reflexivity. Qed.

(** ** [parseCommandLine]: which value counts *)

Lemma parse_loop_last_value (args : list string) :
  accepted_args args -> forall n d,
  parse_loop args n d
  = inr (last_value CommandLineParameter_Threads args n,
         last_value CommandLineParameter_Delay args d).
Proof.
  induction 1 as [|v rest (m & Hv & Hm) _ IH|v rest (m & Hv & Hm) _ IH]; intros n d.
  - done.
  - simpl. rewrite (proj2 (convert_accepted v m) (conj Hv Hm)), Hv. apply IH.
  - simpl. rewrite (proj2 (convert_accepted v m) (conj Hv Hm)), Hv. apply IH.
Qed.

Lemma last_value_app (name : string) (args more : list string) :
  accepted_args args -> forall default,
  last_value name (args ++ more) default
  = last_value name more (last_value name args default).
Proof.
  induction 1 as [|v rest _ _ IH|v rest _ _ IH]; intros default; simpl; [done| |];
    apply IH.
Qed.

Lemma last_value_absent (name : string) (args : list string) :
  accepted_args args -> name ∉ args -> forall default,
  last_value name args default = default.
Proof.
  induction 1 as [|v rest _ _ IH|v rest _ _ IH]; intros Hnot default; [done| |].
  - apply not_elem_of_cons in Hnot as [Hne Hnot].
    apply not_elem_of_cons in Hnot as [_ Hnot].
    cbn [last_value]. rewrite (proj2 (String.eqb_neq _ _)) by congruence.
    by apply IH.
  - apply not_elem_of_cons in Hnot as [Hne Hnot].
    apply not_elem_of_cons in Hnot as [_ Hnot].
    cbn [last_value]. rewrite (proj2 (String.eqb_neq _ _)) by congruence.
    by apply IH.
Qed.

Lemma accepted_args_app (args more : list string) :
  accepted_args args -> accepted_args more -> accepted_args (args ++ more).
Proof.
  induction 1 as [|v rest Hv _ IH|v rest Hv _ IH]; intros Hmore; simpl; [done| |].
  - constructor; [done|by apply IH].
  - constructor; [done|by apply IH].
Qed.

(** X7: on an accepted command line each option takes the value of its
    last occurrence, whatever the order of the options; an option that
    does not occur keeps its default, the hardware concurrency for
    [--threads] and [1] for [--delay]; so an option added at the end
    overrides what was given before and leaves the other option alone. *)
Theorem last_option_counts (hw : Z) (args : list string) :
  accepted_args args ->
  parseCommandLine hw args
  = Configured (last_value CommandLineParameter_Threads args hw)
               (last_value CommandLineParameter_Delay args 1)
  /\ (CommandLineParameter_Threads ∉ args ->
      last_value CommandLineParameter_Threads args hw = hw)
  /\ (CommandLineParameter_Delay ∉ args ->
      last_value CommandLineParameter_Delay args 1 = 1)
  /\ (forall v n, stoi v = inr n -> 0 <= n ->
      parseCommandLine hw (args ++ [CommandLineParameter_Threads; v])
      = Configured n (last_value CommandLineParameter_Delay args 1)
      /\ parseCommandLine hw (args ++ [CommandLineParameter_Delay; v])
         = Configured (last_value CommandLineParameter_Threads args hw) n).
Proof.
  intros Hacc. split_and!.
  - unfold parseCommandLine. by rewrite parse_loop_last_value.
  - intros Hnot. by apply last_value_absent.
  - intros Hnot. by apply last_value_absent.
  - intros v n Hv Hn.
    assert (accepted_value v) as Hval by (by exists n).
    split; unfold parseCommandLine.
    + rewrite parse_loop_last_value
        by (apply accepted_args_app; [done|by repeat constructor]).
      rewrite !last_value_app by done. simpl. by rewrite Hv.
    + rewrite parse_loop_last_value
        by (apply accepted_args_app; [done|by repeat constructor]).
      rewrite !last_value_app by done. simpl. by rewrite Hv.
Qed.

Lemma last_option_counts_witness :
  parseCommandLine 8 (["--threads"; "3"; "--delay"; "0"] ++ ["--threads"; "5"])
  = Configured 5 (last_value "--delay" ["--threads"; "3"; "--delay"; "0"] 1).
Proof.
  assert (accepted_args ["--threads"; "3"; "--delay"; "0"]) as Hacc.
  { apply accepted_threads; [by exists 3|].
    apply accepted_delay; [by exists 0|]. apply accepted_none. }
  apply (proj1 (proj2 (proj2 (proj2
    (last_option_counts 8 ["--threads"; "3"; "--delay"; "0"] Hacc))) "5" 5
    eq_refl ltac:(done))).
Defined.

(** ** The launcher *)

Lemma worker_step_initial (tid rnd : Z) (s s' : State) :
  worker_step tid rnd s = Done s' ->
  forall j t', threads s' !! j = Some t' ->
  exists t, threads s !! j = Some t /\ initialValue t' = initialValue t.
Proof.
  unfold worker_step, tick. intros H j t' Hj.
  destruct (threads s !! tid) as [t|] eqn:Ht; [|simplify_eq; eauto].
  assert (forall p v, (<[tid := mkThread (initialValue t) v p]> (threads s)) !! j = Some t' ->
            exists t0, threads s !! j = Some t0 /\ initialValue t' = initialValue t0) as Hins.
  { intros p v Hlook. destruct (decide (j = tid)) as [->|Hne].
    - rewrite lookup_insert_eq in Hlook. simplify_eq. eauto.
    - rewrite lookup_insert_ne in Hlook by done. eauto. }
  repeat case_match; simplify_eq; simpl in Hj; eauto.
Qed.


Lemma do_event_launcher_inv (e : event) (s s' : State) :
  do_event false e s = Done s' -> launcher_inv s -> launcher_inv s'.
Proof.
  intros Hstep (Hfin & Hpos & Hcount & Hinit). destruct e as [tid rnd|tid]; simpl in Hstep.
  - pose proof (worker_step_frame _ _ _ _ Hstep) as (Hf & Hl & Hla & Hn & _).
    split; [congruence|]. split; [congruence|]. split; [by rewrite Hla, Hl, Hn|].
    intros j t' Hj. destruct (worker_step_initial _ _ _ _ Hstep j t' Hj) as (t & Ht & ->).
    by eapply Hinit.
  - unfold launcher_step in Hstep.
    destruct (launcher s) as [|i|i| |] eqn:Hla.
    + simplify_eq. unfold launcher_inv. simpl. rewrite Hcount. simpl.
      split_and!; try done; lia.
    + rewrite Hfin, andb_true_r in Hstep. destruct Hcount as [Hlen Hle].
      destruct (i <? numberOfThreads s) eqn:E; simplify_eq; unfold launcher_inv; simpl.
      * apply Z.ltb_lt in E. done.
      * apply Z.ltb_ge in E. split_and!; try done; lia.
    + apply bind_Done in Hstep as (s1 & Hstart & Hstep). simplify_eq.
      apply startNewThread_Done in Hstart as (Hz & Hfree & ->).
      destruct Hcount as [Hlen Hlt]. unfold launcher_inv. simpl.
      split_and!; try done.
      * rewrite length_app. simpl. lia.
      * lia.
      * intros j t Hj. destruct (decide (j = tid)) as [->|Hne].
        -- rewrite lookup_insert_eq in Hj. by simplify_eq.
        -- rewrite lookup_insert_ne in Hj by done. by eapply Hinit.
    + simplify_eq. done.
    + simplify_eq. unfold launcher_inv. by rewrite Hla.
Qed.

Lemma do_event_late_starts (locked : bool) (e : event) (s s' : State) :
  programFinished s = true -> do_event locked e s = Done s' ->
  (length (runningThreads s') + late_starts s' = length (runningThreads s) + late_starts s)%nat.
Proof.
  intros Hfin Hstep. destruct e as [tid rnd|tid]; simpl in Hstep.
  - apply worker_step_frame in Hstep as (_ & Hl & Hla & _).
    unfold late_starts. by rewrite Hl, Hla.
  - unfold launcher_step, late_starts in *.
    destruct (launcher s) as [|i|i| |] eqn:Hla.
    + by simplify_eq.
    + rewrite Hfin, andb_false_r in Hstep. by simplify_eq.
    + destruct locked; [simplify_eq; by rewrite Hla|].
      apply bind_Done in Hstep as (s1 & Hstart & Hstep). simplify_eq.
      apply startNewThread_Done in Hstart as (_ & _ & ->). simpl.
      rewrite length_app. simpl. lia.
    + by simplify_eq.
    + simplify_eq. by rewrite Hla.
Qed.

Lemma launcher_step_shutdown (s : State) (tid : Z) :
  programFinished s = true ->
  (forall i, launcher s = LauncherSpawning i -> os_allows s tid = true) ->
  exists s', launcher_step false tid s = Done s'
    /\ programFinished s' = true
    /\ (launcher_rank (launcher s') <= launcher_rank (launcher s) - 1)%nat
    /\ (forall i, launcher s' <> LauncherSpawning i).
Proof.
  intros Hfin Hallow. unfold launcher_step.
  destruct (launcher s) as [|i|i| |] eqn:Hla.
  - eexists. split; [reflexivity|]. simpl. split_and!; [done|lia|done].
  - rewrite Hfin. simpl. rewrite andb_false_r.
    eexists. split; [reflexivity|]. simpl. split_and!; [done|lia|done].
  - unfold startNewThread. rewrite (Hallow i eq_refl).
    eexists. split; [reflexivity|]. simpl. split_and!; [done|lia|done].
  - eexists. split; [reflexivity|]. simpl. split_and!; [done|lia|done].
  - exists s. rewrite Hla. split_and!; [done|done|simpl; lia|done].
Qed.

Lemma launcher_ends_after_shutdown (tid : Z) (n : nat) : forall s,
  programFinished s = true ->
  (forall i, launcher s = LauncherSpawning i -> os_allows s tid = true) ->
  (launcher_rank (launcher s) <= n)%nat ->
  exists s', run_events false (replicate n (LauncherStep tid)) s = Done s'
    /\ launcher s' = LauncherFinished.
Proof.
  induction n as [|n IH]; intros s Hfin Hallow Hrank.
  - exists s. split; [done|]. destruct (launcher s); simpl in Hrank; done || lia.
  - destruct (launcher_step_shutdown s tid Hfin Hallow) as (s1 & Hstep & Hfin1 & Hrank1 & Hno).
    destruct (IH s1 Hfin1) as (s' & Hrun & Hend).
    + intros i Hi. by apply Hno in Hi.
    + lia.
    + exists s'. simpl. rewrite Hstep. done.
Qed.

Lemma launcher_step_go (s : State) (tid i : Z) :
  launcher s = LauncherChecking i -> programFinished s = false ->
  i < numberOfThreads s ->
  launcher_step false tid s = Done (set_launcher (LauncherSpawning i) s).
Proof.
  intros Hla Hfin Hi. unfold launcher_step. rewrite Hla, Hfin.
  by rewrite (proj2 (Z.ltb_lt _ _) Hi).
Qed.

Lemma launcher_step_stop (s : State) (tid i : Z) :
  launcher s = LauncherChecking i ->
  numberOfThreads s <= i \/ programFinished s = true ->
  launcher_step false tid s = Done (set_launcher LauncherEnding s).
Proof.
  intros Hla Hstop. unfold launcher_step. rewrite Hla.
  destruct Hstop as [Hi| ->].
  - by rewrite (proj2 (Z.ltb_ge _ _) Hi).
  - simpl. by rewrite andb_false_r.
Qed.

Lemma launcher_step_spawn (s : State) (tid i : Z) :
  launcher s = LauncherSpawning i -> tid <> 0 -> threads s !! tid = None ->
  launcher_step false tid s
  = Done (set_launcher (LauncherChecking (i + 1))
            (set_threads (<[tid := mkThread None 0 Registering]> (threads s))
               (set_runningThreads (runningThreads s ++ [tid]) s))).
Proof.
  intros Hla Hz Hfree. unfold launcher_step, startNewThread, os_allows.
  rewrite Hla, (proj2 (Z.eqb_neq _ _) Hz). simpl.
  by rewrite bool_decide_eq_true_2.
Qed.

Lemma launcher_step_end (s : State) (tid : Z) :
  launcher s = LauncherEnding ->
  launcher_step false tid s
  = Done (print (Text "Thread initializer thread finished.")
            (set_launcher LauncherFinished s)).
Proof. intros Hla. unfold launcher_step. by rewrite Hla. Qed.

Lemma launch_rounds_end (k : nat) : forall (i : nat) (s : State),
  launcher s = LauncherChecking (Z.of_nat i) ->
  programFinished s = false ->
  numberOfThreads s = Z.of_nat (i + k) ->
  (forall tid, is_Some (threads s !! tid) -> 1 <= tid <= Z.of_nat i) ->
  exists s', run_events false
               (flat_map launch_round (seq i k) ++ [LauncherStep 0; LauncherStep 0]) s
             = Done s'
    /\ launcher s' = LauncherFinished
    /\ length (runningThreads s') = (length (runningThreads s) + k)%nat.
Proof.
  induction k as [|k IH]; intros i s Hla Hfin Hn Hids.
  - cbn [seq flat_map app run_events do_event].
    rewrite (launcher_step_stop s 0 _ Hla) by (left; lia).
    cbn [mbind outcome_bind].
    rewrite launcher_step_end by done. cbn [mbind outcome_bind].
    eexists. split; [reflexivity|]. simpl. split; [done|lia].
  - cbn [seq flat_map launch_round app run_events do_event].
    rewrite (launcher_step_go s 0 _ Hla Hfin) by lia.
    cbn [mbind outcome_bind].
    rewrite (launcher_step_spawn _ _ (Z.of_nat i)); [|done|lia|].
    2:{ simpl. apply eq_None_not_Some. intros Hsome%Hids. lia. }
    cbn [mbind outcome_bind].
    set (s1 := set_launcher _ _).
    destruct (IH (S i) s1) as (s' & Hrun & Hend & Hlen).
    + subst s1. simpl. f_equal. lia.
    + done.
    + subst s1. simpl. rewrite Hn. lia.
    + subst s1. simpl. intros tid Htid.
      destruct (decide (tid = Z.of_nat (S i))) as [->|Hne]; [lia|].
      rewrite lookup_insert_ne in Htid by done. apply Hids in Htid. lia.
    + exists s'. split; [done|]. split; [done|].
      rewrite Hlen. subst s1. simpl. rewrite length_app. simpl. lia.
Qed.

Lemma launch_all_ends (n : nat) :
  exists s', run_events false (launch_all n) (initial_state (Z.of_nat n)) = Done s'
    /\ launcher s' = LauncherFinished /\ length (runningThreads s') = n.
Proof.
  unfold launch_all. cbn [run_events do_event]. unfold launcher_step at 1.
  cbn [launcher initial_state mbind outcome_bind].
  destruct (launch_rounds_end n 0
    (print (Text "Thread initializer thread started.")
       (set_launcher (LauncherChecking 0) (initial_state (Z.of_nat n)))))
    as (s' & Hrun & Hend & Hlen); try done.
  - intros tid [t Ht]. simpl in Ht. by rewrite lookup_empty in Ht.
  - exists s'. done.
Qed.

Lemma run_events_launcher_inv (sch : list event) : forall s s',
  run_events false sch s = Done s' -> launcher_inv s -> launcher_inv s'.
Proof.
  induction sch as [|e sch IH]; intros s s' H Hinv; simpl in H.
  - by simplify_eq.
  - apply bind_Done in H as (s1 & H1 & H2).
    eapply IH; [done|]. by eapply do_event_launcher_inv.
Qed.

Lemma run_events_late_starts (locked : bool) (sch : list event) : forall s s',
  programFinished s = true -> run_events locked sch s = Done s' ->
  (length (runningThreads s') + late_starts s'
   = length (runningThreads s) + late_starts s)%nat.
Proof.
  induction sch as [|e sch IH]; intros s s' Hfin H; simpl in H.
  - by simplify_eq.
  - apply bind_Done in H as (s1 & H1 & H2).
    pose proof (do_event_late_starts _ _ _ _ Hfin H1) as Hstep.
    apply do_event_effect in H1 as (_ & Hfin1 & _).
    rewrite (IH s1 s') by (done || congruence). done.
Qed.

Lemma run_events_number (locked : bool) (sch : list event) : forall s s',
  run_events locked sch s = Done s' -> numberOfThreads s' = numberOfThreads s.
Proof.
  induction sch as [|e sch IH]; intros s s' H; simpl in H; [by simplify_eq|].
  apply bind_Done in H as (s1 & H1 & H2). apply IH in H2.
  apply do_event_effect in H1 as (_ & _ & ? & _). congruence.
Qed.

(** X8: left to itself, before any command, the launcher starts no more
    workers than the number of threads it was given, each of them without
    initial value, and when it has ended it has started exactly that
    number; it does end, when the operating system gives it the threads. *)
Theorem launcher_starts_the_given_number (n : Z) (sch : list event) (s : State) :
  0 <= n ->
  run_events false sch (initial_state n) = Done s ->
  Z.of_nat (length (runningThreads s)) <= n
  /\ (launcher s = LauncherFinished -> Z.of_nat (length (runningThreads s)) = n)
  /\ (forall tid t, threads s !! tid = Some t -> initialValue t = None)
  /\ programFinished s = false
  /\ exists s', run_events false (launch_all (Z.to_nat n)) (initial_state n) = Done s'
       /\ launcher s' = LauncherFinished
       /\ Z.of_nat (length (runningThreads s')) = n.
Proof.
  intros Hn Hrun.
  assert (launcher_inv (initial_state n)) as Hinit.
  { split; [done|]. split; [done|]. split; [done|].
    intros tid t Ht. simpl in Ht. by rewrite lookup_empty in Ht. }
  destruct (run_events_launcher_inv _ _ _ Hrun Hinit) as (Hfin & _ & Hcount & Hnone).
  pose proof (run_events_number _ _ _ _ Hrun) as Hsame. simpl in Hsame.
  rewrite Hsame in Hcount. split_and!.
  - destruct (launcher s); destruct_and?; try lia. by rewrite Hcount.
  - intros Hend. by rewrite Hend in Hcount.
  - done.
  - done.
  - destruct (launch_all_ends (Z.to_nat n)) as (s' & Hall & Hend & Hlen).
    rewrite Z2Nat.id in Hall by done. exists s'. split_and!; [done|done|lia].
Qed.

Lemma launcher_starts_the_given_number_witness :
  exists s, run_events false launch_two (initial_state 2) = Done s
    /\ Z.of_nat (length (runningThreads s)) <= 2
    /\ (launcher s = LauncherFinished -> Z.of_nat (length (runningThreads s)) = 2).
Proof.
  eexists. split; [vm_compute; reflexivity|].
  refine (let H := launcher_starts_the_given_number 2 launch_two _ _ _ in
          conj (proj1 H) (proj1 (proj2 H))).
  - done.
  - vm_compute. reflexivity.
Defined.

(** X9: once the shutdown flag is set the launcher starts at most one
    more worker, and only if the flag was set while it stood between the
    test of its loop and [startNewThread]; otherwise [runningThreads] does
    not change any more.  The launcher then ends within three of its
    steps, so that [main] can join it. *)
Theorem launcher_after_shutdown (locked : bool) (sch : list event) (s s' : State) :
  programFinished s = true ->
  run_events locked sch s = Done s' ->
  (length (runningThreads s') <= length (runningThreads s) + late_starts s)%nat
  /\ ((forall i, launcher s <> LauncherSpawning i) ->
      runningThreads s' = runningThreads s)
  /\ (forall tid,
        (forall i, launcher s = LauncherSpawning i -> os_allows s tid = true) ->
        exists s'', run_events false (replicate 3 (LauncherStep tid)) s = Done s''
          /\ launcher s'' = LauncherFinished).
Proof.
  intros Hfin Hrun.
  pose proof (run_events_late_starts _ _ _ _ Hfin Hrun) as Hsum.
  split_and!.
  - lia.
  - intros Hnot. assert (late_starts s = 0%nat) as Hzero.
    { unfold late_starts. destruct (launcher s) eqn:E; try done. by destruct (Hnot i). }
    pose proof (run_events_handles _ _ _ _ Hrun) as [Hpre _].
    symmetry. apply prefix_length_eq; [done|lia].
  - intros tid Hallow. apply launcher_ends_after_shutdown; [done|done|].
    destruct (launcher s); simpl; lia.
Qed.

Lemma launcher_after_shutdown_witness :
  exists s', run_events false [LauncherStep 9; LauncherStep 9]
               (set_programFinished true one_worker) = Done s'
    /\ runningThreads s' = runningThreads (set_programFinished true one_worker).
Proof.
  eexists. split; [reflexivity|].
  apply (proj1 (proj2 (launcher_after_shutdown false [LauncherStep 9; LauncherStep 9]
                         (set_programFinished true one_worker) _ eq_refl eq_refl))).
  intros i Hi. discriminate Hi.
Defined.

(** ** [listenToCommandLine] *)

Lemma stop_sets_the_flag (line : string) (env : environment) (s s' : State) :
  (parseCommand line).1 = ConsoleCommand_Stop ->
  invokeCommand line env s = Done s' -> programFinished s' = true.
Proof.
  unfold invokeCommand. destruct (parseCommand line) as [command arguments].
  simpl. intros -> Hrun. cbn in Hrun.
  apply bind_Done in Hrun as (s1 & Hev & Hjoin).
  apply run_events_flag in Hev. apply join_from_flags in Hjoin as [_ Hfin].
  simpl in *. congruence.
Qed.

Lemma listen_more (input more : list turn) : forall s s',
  listenToCommandLine input s = Done s' ->
  listenToCommandLine (input ++ more) s = Done s'.
Proof.
  induction input as [|t rest IH]; intros s s' H.
  - simpl in H. destruct (programFinished s) eqn:Hfin; [|done]. simplify_eq.
    destruct more; simpl; by rewrite Hfin.
  - simpl in *. destruct (programFinished s); [done|].
    destruct (run_events false (background t) s) as [s1| | |]; try done. simpl in *.
    destruct (invokeCommand (typed t) (around t) s1) as [s2| | |]; try done. simpl in *.
    by apply IH.
Qed.

(** X10: a session ends at the first [stop]: when [listenToCommandLine]
    returns, the shutdown flag is set, the last line it has read is the
    first line whose command is [stop], and the lines after it are never
    read, so that more input changes nothing. *)
Theorem session_ends_at_first_stop (input more : list turn) (s s' : State) :
  programFinished s = false ->
  listenToCommandLine input s = Done s' ->
  programFinished s' = true
  /\ listenToCommandLine (input ++ more) s = Done s'
  /\ exists before t after,
       input = before ++ t :: after
       /\ Forall (fun t' => (parseCommand (typed t')).1 <> ConsoleCommand_Stop) before
       /\ (parseCommand (typed t)).1 = ConsoleCommand_Stop
       /\ listenToCommandLine (before ++ [t]) s = Done s'.
Proof.
  intros Hfin Hrun. split; [by eapply listen_ends_by_stop|].
  split; [by apply listen_more|].
  revert s Hfin Hrun. induction input as [|t rest IH]; intros s Hfin Hrun.
  - simpl in Hrun. by rewrite Hfin in Hrun.
  - pose proof Hrun as Hall. simpl in Hrun. rewrite Hfin in Hrun.
    apply bind_Done in Hrun as (s1 & Hbg & Hrun).
    apply bind_Done in Hrun as (s2 & Hcmd & Hrest).
    pose proof (run_events_flag _ _ _ _ Hbg) as Hfin1.
    destruct (programFinished s2) eqn:Hfin2.
    + exists [], t, rest.
      destruct (invokeCommand_flags _ _ _ _ Hcmd) as [_ [Hsame|[Hstop _]]]; [congruence|].
      split_and!; [done|constructor|done|].
      destruct rest; simpl in Hrest; rewrite Hfin2 in Hrest; simplify_eq;
        simpl; by rewrite Hfin, Hbg; simpl; rewrite Hcmd; simpl; rewrite Hfin2.
    + destruct (IH s2 Hfin2 Hrest) as (before & t' & after & -> & Hnone & Hstop & Hlast).
      exists (t :: before), t', after. split_and!; [done| |done|].
      * constructor; [|done]. intros Hstop'.
        pose proof (stop_sets_the_flag _ _ _ _ Hstop' Hcmd). congruence.
      * simpl. rewrite Hfin, Hbg. simpl. rewrite Hcmd. simpl. done.
Qed.

Lemma session_ends_at_first_stop_witness :
  listenToCommandLine (stop_at_once ++ [mkTurn [] "new 5" (quiet 3)]) (initial_state 0)
  = Done (set_programFinished true (initial_state 0)).
Proof.
  apply (proj1 (proj2 (session_ends_at_first_stop stop_at_once
                         [mkTurn [] "new 5" (quiet 3)] (initial_state 0) _
                         eq_refl eq_refl))).
Defined.

(** ** [killThread] and the other workers *)

Lemma run_one_worker_frame (locked : bool) (tid rnd : Z) (n : nat) : forall s s',
  run_events locked (replicate n (WorkerStep tid rnd)) s = Done s' ->
  runningThreads s' = runningThreads s
  /\ forall j, j <> tid ->
       threads s' !! j = threads s !! j /\ threadsData s' !! j = threadsData s !! j.
Proof.
  induction n as [|n IH]; intros s s' H; simpl in H.
  - by simplify_eq.
  - apply bind_Done in H as (s1 & H1 & H2). apply IH in H2 as [Hl Hothers].
    apply worker_step_frame in H1 as (_ & Hl1 & _ & _ & _ & Hth & Hda).
    split; [congruence|]. intros j Hj. destruct (Hothers j Hj) as [-> ->].
    by rewrite Hth, Hda.
Qed.

Lemma elem_of_joined (handles : list Z) (k : nat) (id j : Z) :
  handles !! k = Some id -> j <> id -> j ∈ handles -> j ∈ <[k := 0]> handles.
Proof.
  intros Hk Hne [i Hi]%list_elem_of_lookup_1.
  apply list_elem_of_lookup_2 with i. rewrite list_lookup_insert_ne; [done|].
  intros ->. congruence.
Qed.

Lemma elem_of_erased (handles : list Z) (k : nat) (j : Z) :
  handles !! k = Some 0 -> j <> 0 -> j ∈ handles -> j ∈ delete k handles.
Proof.
  intros Hk Hz [i Hi]%list_elem_of_lookup_1.
  assert (i <> k) by (intros ->; congruence).
  destruct (decide (i < k)%nat).
  - apply list_elem_of_lookup_2 with i. by rewrite list_lookup_delete_lt.
  - apply list_elem_of_lookup_2 with (i - 1)%nat.
    rewrite list_lookup_delete_ge by lia. by replace (S (i - 1)) with i by lia.
Qed.

(** X11: [killThread] takes away no other worker: whatever the other
    threads do meanwhile, every other thread that was started is still
    there, every other record is still there with its [killed] flag, and
    every other joinable handle is still in [runningThreads].  When only
    the killed worker runs meanwhile, the records and the locals of the
    other workers are exactly as before. *)
Theorem kill_spares_the_others (id : Z) (sa sj sb : list event) (s s' : State) :
  killThread id sa sj sb s = Done s' ->
  (forall j, j <> id ->
     (is_Some (threads s !! j) -> is_Some (threads s' !! j))
     /\ (forall d, threadsData s !! j = Some d ->
          exists d', threadsData s' !! j = Some d' /\ killed d' = killed d)
     /\ (j <> 0 -> j ∈ runningThreads s -> j ∈ runningThreads s'))
  /\ (sa = [] -> sb = [] -> (exists n rnd, sj = replicate n (WorkerStep id rnd)) ->
      forall j, j <> id ->
        threads s' !! j = threads s !! j /\ threadsData s' !! j = threadsData s !! j).
Proof.
  intros Hrun. destruct (threadsData s !! id) as [d|] eqn:Hd.
  2:{ rewrite (killThread_unknown _ _ _ _ _ Hd) in Hrun. simplify_eq.
      split; [|done]. intros j Hj. split_and!; eauto. }
  destruct (killThread_Done _ _ _ _ _ _ d Hd Hrun)
    as (s2 & k & s3 & s4 & H2 & Hk & H3 & H4 & ->).
  apply find_handle_Some in Hk.
  apply join_Done in H3 as (tid & s2' & t & Hk' & Hz & Hj & _ & _ & ->).
  assert (tid = id) as -> by congruence.
  split.
  - intros j Hne.
    pose proof (run_events_handles _ _ _ _ H2) as [Hpre2 Hkeep2].
    pose proof (run_events_handles _ _ _ _ Hj) as [Hprej Hkeepj].
    pose proof (run_events_handles _ _ _ _ H4) as [Hpre4 Hkeep4].
    pose proof (prefix_lookup_Some _ _ _ _ Hk Hprej) as Hk2.
    pose proof (lookup_lt_Some _ _ _ Hk2) as Hlt.
    split_and!.
    + intros Hsome. simpl. apply Hkeep4. simpl. rewrite lookup_delete_ne by done.
      apply Hkeepj, Hkeep2. done.
    + intros dj Hdj. simpl. rewrite lookup_delete_ne by done.
      pose proof (run_events_flags _ _ _ _ H2) as F2.
      pose proof (run_events_flags _ _ _ _ Hj) as Fj.
      pose proof (run_events_flags _ _ _ _ H4) as F4.
      destruct (flags_kept_trans _ _ _ (flags_kept_trans _ _ _ F2 Fj) F4) as [Hkeep _].
      apply (Hkeep j dj). simpl. by rewrite lookup_insert_ne.
    + intros Hz0 Hin. simpl. apply elem_of_erased; [|done|].
      * eapply prefix_lookup_Some; [|done]. simpl. by rewrite list_lookup_insert_eq.
      * eapply elem_of_prefix; [|done]. simpl.
        apply (elem_of_joined _ k id); [done|done|].
        eapply elem_of_prefix; [|done]. eapply elem_of_prefix; [|done]. done.
  - intros -> -> (n & rnd & ->) j Hne. simpl in H2, H4. simplify_eq.
    apply run_one_worker_frame in Hj as [_ Hothers].
    destruct (Hothers j Hne) as [Hth Hda]. simpl in *.
    rewrite !lookup_delete_ne by done. rewrite Hth, Hda.
    by rewrite lookup_insert_ne.
Qed.

Lemma kill_spares_the_others_witness :
  exists s', killThread 7 [] (five_steps 7) [] two_workers = Done s'
    /\ threads s' !! 8 = threads two_workers !! 8
    /\ threadsData s' !! 8 = threadsData two_workers !! 8.
Proof.
  eexists. split; [vm_compute; reflexivity|].
  refine (proj2 (kill_spares_the_others 7 [] (five_steps 7) [] two_workers _ _)
            eq_refl eq_refl (ex_intro _ 5%nat (ex_intro _ 0 eq_refl)) 8 _).
  - vm_compute. reflexivity.
  - discriminate.
Defined.

(** ** [killThread] when the id is not given again *)

Lemma print_info_Done (handles : list Z) : forall s s',
  print_info handles s = Done s' ->
  Forall (fun id => is_Some (threadsData s !! id)) handles.
Proof.
  induction handles as [|id rest IH]; intros s s' Hrun; [constructor|].
  simpl in Hrun. destruct (threadsData s !! id) as [d|] eqn:Hd; [|done].
  constructor; [by rewrite Hd|]. by apply IH in Hrun.
Qed.

Lemma printThreadsInfo_Done (s s' : State) :
  printThreadsInfo s = Done s' -> cout s' = cout s ++ info_lines s.
Proof.
  intros Hrun. pose proof (print_info_Done _ _ _ Hrun) as Hall.
  destruct (print_info_registered _ s Hall) as (s'' & Hrun' & Hout).
  unfold printThreadsInfo in Hrun. rewrite Hrun in Hrun'. by simplify_eq.
Qed.

(** The handle at [k], joined and then erased, is taken out of the list
    as it was; what was appended meanwhile stays. *)
Lemma erase_joined (l : list Z) : forall (k : nat) (x : Z) (a b : list Z),
  (k < length l)%nat ->
  delete k (<[k := x]> (l ++ a) ++ b) = delete k l ++ a ++ b.
Proof.
  induction l as [|h l IH]; intros k x a b Hk; simpl in Hk; [lia|].
  destruct k as [|k]; simpl.
  - by rewrite <- app_assoc.
  - f_equal. apply IH. lia.
Qed.

Lemma app_same_nil (l new : list Z) : l = l ++ new -> new = [].
Proof. intros H. apply (app_inv_head l). by rewrite app_nil_r. Qed.

Lemma killThread_handles (id : Z) (sa sj sb : list event) (s s' : State) :
  pool_wf s -> is_Some (threadsData s !! id) -> is_Some (threads s !! id) ->
  killThread id sa sj sb s = Done s' ->
  exists k new,
    runningThreads s !! k = Some id
    /\ runningThreads s' = delete k (runningThreads s) ++ new
    /\ Forall (fun handle => handle <> 0) new
    /\ (sa = [] -> sb = [] -> (exists n rnd, sj = replicate n (WorkerStep id rnd)) ->
        new = []
        /\ forall j, j <> id -> threadsData s' !! j = threadsData s !! j).
Proof.
  intros Hwf [d Hd] Ht Hrun.
  destruct (killThread_Done _ _ _ _ _ _ d Hd Hrun)
    as (s2 & k & s3 & s4 & H2 & Hk & H3 & H4 & ->).
  apply find_handle_Some in Hk.
  apply join_Done in H3 as (tid & s2' & t & Hk' & Hz & Hj & _ & _ & ->).
  assert (tid = id) as -> by congruence.
  pose proof (run_events_wf _ _ _ _ H2 (set_threadsData_wf _ _ Hwf)) as [Hdist2 _].
  destruct (run_events_appended _ _ _ _ H2) as (n1 & Hl2 & Hn1). simpl in Hl2.
  destruct (run_events_appended _ _ _ _ Hj) as (n2 & Hl2' & Hn2).
  destruct (run_events_appended _ _ _ _ H4) as (n3 & Hl4 & Hn3). simpl in Hl4.
  destruct (proj1 (proj2 Hwf id) Ht) as [_ [k0 Hk0]%list_elem_of_lookup_1].
  assert (k = k0) as ->.
  { apply (Hdist2 k k0 id); [done| |done]. rewrite Hl2. by apply lookup_app_l_Some. }
  pose proof (lookup_lt_Some _ _ _ Hk0) as Hlt.
  exists k0, (n1 ++ n2 ++ n3). split; [done|]. split; [|split].
  - simpl. rewrite Hl4, Hl2', Hl2, <- app_assoc.
    rewrite (erase_joined _ k0 0 (n1 ++ n2) n3 Hlt). by rewrite <- app_assoc.
  - rewrite !Forall_app. done.
  - intros -> -> (n & rnd & ->). simpl in H2, H4.
    injection H2 as <-. injection H4 as <-.
    apply run_one_worker_frame in Hj as [Hsame Hothers]. simpl in *.
    rewrite Hsame in Hl2'.
    apply app_same_nil in Hl2 as ->. apply app_same_nil in Hl2' as ->.
    apply app_same_nil in Hl4 as ->. split; [done|].
    intros j Hne. rewrite lookup_delete_ne by done.
    rewrite (proj2 (Hothers j Hne)). by rewrite lookup_insert_ne.
Qed.

(** X14: when the id is not given to a thread started between the [join]
    and the last guarded block, [killThread] on the id of a running
    worker that has its record does what it is to do.  It returns when
    the worker is given its steps.  Once it has returned, whatever the
    other threads did meanwhile, the thread has been joined, its record is
    erased, its handle is erased from [runningThreads] (the list is as
    before without that handle, followed by the handles of the threads
    started meanwhile, all joinable), what [printThreadsInfo] then prints
    has no line for the id, and [killThread] and [resetThread] on the id
    change nothing.  When only the killed worker ran and every handle had
    its record, [printThreadsInfo] returns afterwards. *)
Theorem kill_without_reuse_removes_worker (id : Z) (sa sj sb : list event) (s : State) :
  pool_wf s -> is_Some (threadsData s !! id) -> is_Some (threads s !! id) ->
  (exists s', killThread id [] (five_steps id) [] s = Done s'
     /\ (Forall (fun j => is_Some (threadsData s !! j)) (runningThreads s) ->
         exists s'', printThreadsInfo s' = Done s''
           /\ length (info_lines s') = (length (runningThreads s) - 1)%nat))
  /\ (never_starts id sb ->
      forall s', killThread id sa sj sb s = Done s' ->
        threads s' !! id = None
        /\ threadsData s' !! id = None
        /\ (id ∉ runningThreads s')
        /\ (exists k new,
              runningThreads s !! k = Some id
              /\ runningThreads s' = delete k (runningThreads s) ++ new
              /\ Forall (fun handle => handle <> 0) new)
        /\ (forall s'', printThreadsInfo s' = Done s'' ->
              cout s'' = cout s' ++ info_lines s'
              /\ forall v, ThreadInfo id v ∉ info_lines s')
        /\ (forall sa' sj' sb', killThread id sa' sj' sb' s' = Done s')
        /\ (forall v, resetThread id v s' = s')).
Proof.
  intros Hwf Hd Ht. split.
  - destruct (killThread_returns id 0 s Hwf Hd Ht) as [s' Hs'].
    exists s'. split; [done|]. intros Hall.
    destruct (killThread_removes _ _ _ _ _ _ Hwf Hd Ht (Forall_nil_2 _) Hs')
      as (_ & _ & Hhandle).
    destruct (killThread_handles _ _ _ _ _ _ Hwf Hd Ht Hs')
      as (k & new & Hk & Hl & _ & Hquiet).
    destruct Hquiet as [-> Hsame]; [done|done|by exists 5%nat, 0|].
    rewrite app_nil_r in Hl.
    destruct (print_info_registered (runningThreads s') s') as (s'' & Hinfo & _).
    { rewrite Forall_forall. intros j Hj.
      assert (j <> id) as Hne by (by intros ->).
      rewrite (Hsame j Hne). rewrite Forall_forall in Hall. apply Hall.
      rewrite Hl in Hj. by eapply list_elem_of_delete_inv. }
    exists s''. split; [done|]. unfold info_lines.
    rewrite length_fmap, Hl, length_delete; [done|by eexists].
  - intros Hnever s' Hrun.
    destruct (killThread_removes _ _ _ _ _ _ Hwf Hd Ht Hnever Hrun)
      as (Hthread & Hdata & Hhandle).
    destruct (killThread_handles _ _ _ _ _ _ Hwf Hd Ht Hrun)
      as (k & new & Hk & Hl & Hnew & _).
    split_and!; try done.
    + by exists k, new.
    + intros s'' Hinfo. split; [by apply printThreadsInfo_Done|].
      intros v. by apply info_lines_absent.
    + intros sa' sj' sb'. by apply killThread_unknown.
    + intros v. unfold resetThread. by rewrite Hdata.
Qed.

Lemma two_workers_wf : pool_wf two_workers.
Proof.
  split.
  - intros [|[|i]] [|[|j]] tid Hi Hj _; simpl in *; simplify_eq; done.
  - intros tid. simpl. rewrite !elem_of_cons, elem_of_nil.
    destruct (decide (tid = 7)) as [->|H7].
    { rewrite lookup_insert_eq. split; [intros _; split; [done|by left]|].
      intros _. by eexists. }
    rewrite lookup_insert_ne by done.
    destruct (decide (tid = 8)) as [->|H8].
    { rewrite lookup_singleton_eq. split; [intros _; split; [done|by right; left]|].
      intros _. by eexists. }
    rewrite lookup_singleton_ne by done. split; [by intros [? ?]|tauto].
Qed.

Lemma kill_without_reuse_removes_worker_witness :
  exists s', killThread 7 [LauncherStep 9] (five_steps 7) [WorkerStep 9 3] two_workers
               = Done s'
    /\ threads s' !! 7 = None
    /\ threadsData s' !! 7 = None
    /\ (7 ∉ runningThreads s')
    /\ (exists k new,
          runningThreads two_workers !! k = Some 7
          /\ runningThreads s' = delete k (runningThreads two_workers) ++ new
          /\ Forall (fun handle => handle <> 0) new)
    /\ (forall s'', printThreadsInfo s' = Done s'' ->
          cout s'' = cout s' ++ info_lines s'
          /\ forall v, ThreadInfo 7 v ∉ info_lines s')
    /\ (forall sa' sj' sb', killThread 7 sa' sj' sb' s' = Done s')
    /\ (forall v, resetThread 7 v s' = s').
Proof.
  eexists. split; [vm_compute; reflexivity|].
  refine (proj2 (kill_without_reuse_removes_worker 7 [LauncherStep 9] (five_steps 7)
                   [WorkerStep 9 3] two_workers two_workers_wf
                   (mk_is_Some _ (mkThreadData false 100) eq_refl)
                   (mk_is_Some _ (mkThread (Some 100) 100 Sleeping) eq_refl)) _ _ _).
  - repeat constructor; discriminate.
  - vm_compute. reflexivity.
Defined.

(** ** The record and the handle of a thread *)

Lemma bind_defined {A B} (m : outcome A) (f : A -> outcome B) :
  defined m = true -> (forall a, m = Done a -> defined (f a) = true) ->
  defined (m ≫= f) = true.
Proof. destruct m; simpl; auto. Qed.

Lemma do_event_defined (locked : bool) (e : event) (s : State) :
  defined (do_event locked e s) = true.
Proof.
  destruct e as [tid rnd|tid]; simpl.
  - unfold worker_step, tick. repeat case_match; done.
  - unfold launcher_step, startNewThread. repeat case_match; done.
Qed.

Lemma run_events_defined (locked : bool) (sch : list event) : forall s,
  defined (run_events locked sch s) = true.
Proof.
  induction sch as [|e sch IH]; intros s; [done|]. simpl.
  apply bind_defined; [apply do_event_defined|auto].
Qed.

Lemma join_defined (locked : bool) (k : nat) (sch : list event) (s : State) :
  pool_wf s -> (k < length (runningThreads s))%nat ->
  defined (join locked k sch s) = true.
Proof.
  intros [_ Hwf] Hk. unfold join.
  destruct (lookup_lt_is_Some_2 _ _ Hk) as [tid Htid]. rewrite Htid.
  destruct (Z.eqb_spec tid 0) as [|Hz]; [done|].
  apply bind_defined; [apply run_events_defined|]. intros s1 Hrun.
  assert (is_Some (threads s !! tid)) as Hsome.
  { apply Hwf. split; [done|]. by eapply list_elem_of_lookup_2. }
  apply (proj2 (run_events_handles _ _ _ _ Hrun)) in Hsome as [t Ht].
  rewrite Ht. by destruct (at_position t).
Qed.

Lemma print_info_defined (handles : list Z) : forall s,
  defined (print_info handles s) = true.
Proof.
  induction handles as [|id rest IH]; intros s; [done|]. simpl.
  destruct (threadsData s !! id); [apply IH|done].
Qed.

Lemma join_from_defined (n : nat) : forall k schs s,
  pool_wf s -> length (runningThreads s) = (k + n)%nat ->
  defined (join_from k n schs s) = true.
Proof.
  induction n as [|n IH]; intros k schs s Hwf Hlen; [done|]. simpl.
  apply bind_defined; [apply join_defined; [done|lia]|].
  intros s1 Hjoin.
  apply join_Done in Hjoin as (tid & s2 & t & Hk & Hz & Hrun & _ & _ & ->).
  pose proof (run_events_locked_handles _ _ _ Hrun) as Hsame.
  apply IH.
  - apply reap_wf; [by eapply run_events_wf| |done]. by rewrite Hsame.
  - simpl. rewrite length_insert, Hsame. lia.
Qed.

Lemma do_event_records (P : Z -> Prop) (locked : bool) (e : event) (s s' : State) :
  pool_wf s ->
  (forall id, P id -> is_Some (threadsData s !! id) -> id <> 0 /\ id ∈ runningThreads s) ->
  do_event locked e s = Done s' ->
  forall id, P id -> is_Some (threadsData s' !! id) -> id <> 0 /\ id ∈ runningThreads s'.
Proof.
  intros [_ Hwf] Hrec Hstep id HP Hid. destruct e as [tid rnd|tid]; simpl in Hstep.
  - destruct (threads s !! tid) as [t|] eqn:Ht.
    + apply worker_step_frame in Hstep as (_ & Hl & _ & _ & _ & _ & Hda). rewrite Hl.
      destruct (decide (id = tid)) as [->|Hne].
      * apply Hwf. by rewrite Ht.
      * apply Hrec; [done|]. by rewrite <- Hda.
    + unfold worker_step in Hstep. rewrite Ht in Hstep. simplify_eq. by apply Hrec.
  - apply launcher_step_effect in Hstep as (_ & Hda & _ & [[Hl _]|(_ & _ & _ & Hl & _)]);
      rewrite Hda in Hid; destruct (Hrec id HP Hid) as [Hz Hin]; rewrite Hl.
    + done.
    + split; [done|]. apply elem_of_app. by left.
Qed.

Lemma run_events_records (P : Z -> Prop) (locked : bool) (sch : list event) : forall s s',
  pool_wf s ->
  (forall id, P id -> is_Some (threadsData s !! id) -> id <> 0 /\ id ∈ runningThreads s) ->
  run_events locked sch s = Done s' ->
  forall id, P id -> is_Some (threadsData s' !! id) -> id <> 0 /\ id ∈ runningThreads s'.
Proof.
  induction sch as [|e sch IH]; intros s s' Hwf Hrec Hrun; simpl in Hrun.
  - by simplify_eq.
  - apply bind_Done in Hrun as (s1 & H1 & H2).
    eapply IH; [by eapply do_event_wf| |done].
    by eapply do_event_records.
Qed.

Lemma killThread_defined (id : Z) (sa sj sb : list event) (s : State) :
  pool_wf s -> records_have_handles s ->
  defined (killThread id sa sj sb s) = true.
Proof.
  intros Hwf Hrec. unfold killThread.
  destruct (threadsData s !! id) as [d|] eqn:Hd; [|done].
  destruct (Hrec id) as [Hz Hin]; [by rewrite Hd|].
  apply bind_defined; [apply run_events_defined|]. intros s2 H2.
  pose proof (run_events_wf _ _ _ _ H2 (set_threadsData_wf _ _ Hwf)) as Hwf2.
  pose proof (run_events_handles _ _ _ _ H2) as [Hpre _]. simpl in Hpre.
  destruct (find_handle_elem id (runningThreads s2)) as [k Hk];
    [by eapply elem_of_prefix|].
  rewrite Hk. pose proof (find_handle_Some _ _ _ Hk) as Hk'.
  apply bind_defined.
  { apply join_defined; [done|]. by eapply lookup_lt_Some. }
  intros s3 H3. apply bind_defined; [apply run_events_defined|done].
Qed.

Lemma killThread_records (id : Z) (sa sj sb : list event) (s s' : State) :
  pool_wf s -> records_have_handles s ->
  killThread id sa sj sb s = Done s' -> records_have_handles s'.
Proof.
  intros Hwf Hrec Hrun.
  destruct (threadsData s !! id) as [d|] eqn:Hd.
  2:{ rewrite (killThread_unknown _ _ _ _ _ Hd) in Hrun. by simplify_eq. }
  destruct (killThread_Done _ _ _ _ _ _ d Hd Hrun)
    as (s2 & k & s3 & s4 & H2 & Hk & H3 & H4 & ->).
  apply find_handle_Some in Hk.
  apply join_Done in H3 as (tid & s2' & t & Hk' & Hz & Hj & _ & _ & ->).
  assert (tid = id) as -> by congruence.
  pose proof (run_events_wf _ _ _ _ H2 (set_threadsData_wf _ _ Hwf)) as Hwf2.
  pose proof (run_events_wf _ _ _ _ Hj Hwf2) as Hwf2'.
  pose proof (run_events_handles _ _ _ _ Hj) as [Hpre _].
  pose proof (prefix_lookup_Some _ _ _ _ Hk Hpre) as Hk2.
  pose proof (lookup_lt_Some _ _ _ Hk2) as Hlt.
  pose proof (reap_wf s2' k id Hwf2' Hk2 Hz) as Hwf3.
  pose proof (run_events_handles _ _ _ _ H4) as [Hpre4 _]. simpl in Hpre4.
  assert (forall j, True -> is_Some (threadsData s2' !! j) ->
            j <> 0 /\ j ∈ runningThreads s2') as Hrec2.
  { eapply (run_events_records (fun _ => True)); [exact Hwf2| |exact Hj].
    eapply (run_events_records (fun _ => True)); [| |exact H2];
      [by apply set_threadsData_wf|].
    intros j _ Hj'. simpl in Hj'. apply Hrec.
    destruct (decide (j = id)) as [->|Hne]; [by rewrite Hd|].
    by rewrite lookup_insert_ne in Hj'. }
  assert (forall j, j <> id -> is_Some (threadsData s4 !! j) ->
            j <> 0 /\ j ∈ runningThreads s4) as Hrec4.
  { eapply (run_events_records (fun j => j <> id)); [exact Hwf3| |exact H4].
    intros j Hne Hj'. simpl in *. destruct (Hrec2 j I Hj') as [Hjz Hin].
    split; [done|]. by apply (elem_of_joined _ k id). }
  intros j Hj'. simpl in *.
  destruct (decide (j = id)) as [->|Hne].
  { rewrite lookup_delete_eq in Hj'. by destruct Hj'. }
  rewrite lookup_delete_ne in Hj' by done.
  destruct (Hrec4 j Hne Hj') as [Hjz Hin]. split; [done|].
  apply elem_of_erased; [|done|done].
  eapply prefix_lookup_Some; [|done]. by rewrite list_lookup_insert_eq.
Qed.

Lemma invokeCommand_defined (line : string) (env : environment) (s : State) :
  pool_wf s -> records_have_handles s ->
  defined (invokeCommand line env s) = true.
Proof.
  intros Hwf Hrec. unfold invokeCommand.
  destruct (parseCommand line) as [command arguments].
  repeat case_match; try done.
  - apply print_info_defined.
  - unfold startNewThread. by case_match.
  - unfold startNewThread. by case_match.
  - by apply killThread_defined.
  - apply bind_defined; [apply run_events_defined|]. intros s1 Hev.
    apply join_from_defined; [|done].
    by apply (run_events_wf _ _ _ _ Hev).
Qed.

Lemma invokeCommand_records (line : string) (env : environment) (s s' : State) :
  pool_wf s -> records_have_handles s ->
  invokeCommand line env s = Done s' ->
  programFinished s' = false -> records_have_handles s'.
Proof.
  intros Hwf Hrec. unfold invokeCommand.
  destruct (parseCommand line) as [command arguments].
  intros Hrun Hfin. repeat case_match; simplify_eq; try done.
  - apply print_info_frame in Hrun as (Hda & Hl & _).
    unfold records_have_handles. by rewrite Hda, Hl.
  - apply startNewThread_Done in Hrun as (_ & _ & ->). intros j Hj. simpl in *.
    destruct (Hrec j Hj). split; [done|]. apply elem_of_app. by left.
  - apply startNewThread_Done in Hrun as (_ & _ & ->). intros j Hj. simpl in *.
    destruct (Hrec j Hj). split; [done|]. apply elem_of_app. by left.
  - by eapply killThread_records.
  - unfold resetThread. destruct (threadsData s !! _) as [d|] eqn:Hd; [|done].
    intros j Hj. simpl in *. apply Hrec.
    destruct (decide (j = to_size_t z)) as [->|Hne]; [by rewrite Hd|].
    by rewrite lookup_insert_ne in Hj.
  - unfold resetThread. destruct (threadsData s !! _) as [d|] eqn:Hd; [|done].
    intros j Hj. simpl in *. apply Hrec.
    destruct (decide (j = to_size_t z)) as [->|Hne]; [by rewrite Hd|].
    by rewrite lookup_insert_ne in Hj.
  - apply bind_Done in Hrun as (s1 & Hev & Hjoin).
    pose proof (run_events_flag _ _ _ _ Hev) as Hfin1.
    pose proof (join_from_flags _ _ _ _ _ Hjoin) as [_ Hfin2].
    simpl in *. congruence.
Qed.

(** X12: in a run, until [stop], every record of [threadsData] is that
    of a thread whose joinable handle is in [runningThreads].  So the
    [find_if] of [killThread] finds a handle whenever the record is
    there, and [runningThreads.erase] is never called with [end()]; and
    no command joins through a handle that denotes no thread.  These are
    the two ways in which a command can be [Undefined] in the model; the
    unguarded reads of [runningThreads.end()] in [killThread] are not
    among them. *)
Theorem erase_is_never_at_end (s : State) :
  reachable s -> programFinished s = false ->
  records_have_handles s
  /\ forall line env, defined (invokeCommand line env s) = true.
Proof.
  intros Hreach Hfin.
  assert (pool_wf s /\ (programFinished s = false ->
            (0 ∉ runningThreads s) /\ records_have_handles s)) as [Hwf Hinv].
  { clear Hfin.
    induction Hreach as [n|e s s' _ [Hwf Hinv] Hstep|line env s s' _ [Hwf Hinv] Hfin Hcmd].
    - split; [split|]; simpl.
      + intros i j tid Hi. by rewrite lookup_nil in Hi.
      + intros tid. rewrite lookup_empty, elem_of_nil. split; [by intros [? ?]|tauto].
      + intros _. split; [apply not_elem_of_nil|].
        intros id Hid. simpl in Hid. rewrite lookup_empty in Hid. by destruct Hid.
    - split; [by eapply do_event_wf|]. intros Hfin'.
      pose proof (do_event_effect _ _ _ _ Hstep) as (_ & Hfin & _).
      destruct Hinv as [Hnz Hrec]; [congruence|]. split.
      + apply (run_events_joinable false [e] s s'); [|done]. simpl. by rewrite Hstep.
      + intros id. eapply (do_event_records (fun _ => True)); [done| |done|done].
        intros id' _. apply Hrec.
    - destruct (Hinv Hfin) as [Hnz Hrec].
      destruct (invokeCommand_wf _ _ _ _ Hwf Hnz Hcmd) as [Hwf' Hnz'].
      split; [done|]. intros Hfin'. split.
      + destruct Hnz'; [done|congruence].
      + exact (invokeCommand_records _ _ _ _ Hwf Hrec Hcmd Hfin'). }
  destruct (Hinv Hfin) as [_ Hrec]. split; [done|].
  intros line env. by apply invokeCommand_defined.
Qed.

Lemma erase_is_never_at_end_witness :
  records_have_handles newly_registered
  /\ forall line env, defined (invokeCommand line env newly_registered) = true.
Proof.
  apply (erase_is_never_at_end newly_registered); [|reflexivity].
  apply (reachable_event (WorkerStep 7 0) just_started); [|reflexivity].
  apply (reachable_command "new 100" (quiet 7) (initial_state 0) just_started
           (reachable_start 0) eq_refl eq_refl).
Defined.

(** ** What a killed worker prints *)

Lemma worker_step_at (tid rnd : Z) (s : State) (t : Thread) (p : position) :
  threads s !! tid = Some t -> at_position t = p ->
  worker_step tid rnd s =
    match p with
    | Registering =>
        let v := initializeThreadValue (initialValue t) rnd in
        Done (set_threads (<[tid := mkThread (initialValue t) v Announcing]> (threads s))
                (set_threadsData (map_insert_new tid (mkThreadData false v) (threadsData s)) s))
    | Announcing => Done (print (ThreadStarted tid (threadValue t)) (move tid t LoopHead s))
    | LoopHead =>
        if programFinished s then Done (move tid t Finishing s)
        else Done (move tid t Sleeping s)
    | Sleeping => tick tid t s
    | Finishing => Done (print (ThreadFinished tid (threadValue t)) (move tid t Finished s))
    | Finished => Done s
    end.
Proof. intros Ht <-. unfold worker_step. by rewrite Ht. Qed.

Lemma run_events_cons (locked : bool) (e : event) (sch : list event) (s s1 : State) :
  do_event locked e s = Done s1 ->
  run_events locked (e :: sch) s = run_events locked sch s1.
Proof. intros H. simpl. by rewrite H. Qed.

(** The steps in which a worker in its loop whose record is marked
    leaves the loop and prints its last line. *)
Lemma killed_worker_ends (locked : bool) (tid rnd : Z) (s : State) (t : Thread)
    (d : ThreadData) :
  threads s !! tid = Some t -> at_position t = Sleeping ->
  threadsData s !! tid = Some d -> killed d = true ->
  exists s', run_events locked (replicate 5 (WorkerStep tid rnd)) s = Done s'
    /\ cout s' = cout s ++ [ThreadFinished tid (threadValue t)]
    /\ (at_position <$> threads s' !! tid) = Some Finished
    /\ runningThreads s' = runningThreads s
    /\ threadsData s' = threadsData s
    /\ programFinished s' = programFinished s.
Proof.
  intros Ht Hpos Hd Hkilled.
  set (s1 := move tid t Finishing s).
  set (t1 := mkThread (initialValue t) (threadValue t) Finishing).
  set (s2 := print (ThreadFinished tid (threadValue t1)) (move tid t1 Finished s1)).
  set (t2 := mkThread (initialValue t1) (threadValue t1) Finished).
  assert (threads s1 !! tid = Some t1) as Ht1 by apply lookup_insert_eq.
  assert (threads s2 !! tid = Some t2) as Ht2 by apply lookup_insert_eq.
  assert (worker_step tid rnd s = Done s1) as H1.
  { rewrite (worker_step_at _ _ _ _ _ Ht Hpos). by apply tick_killed with d. }
  assert (worker_step tid rnd s1 = Done s2) as H2
    by exact (worker_step_at tid rnd s1 t1 Finishing Ht1 eq_refl).
  assert (worker_step tid rnd s2 = Done s2) as H3
    by exact (worker_step_at tid rnd s2 t2 Finished Ht2 eq_refl).
  exists s2. split.
  - change (replicate 5 (WorkerStep tid rnd))
      with (WorkerStep tid rnd :: WorkerStep tid rnd :: WorkerStep tid rnd
            :: WorkerStep tid rnd :: [WorkerStep tid rnd]).
    rewrite (run_events_cons locked (WorkerStep tid rnd) _ s s1 H1).
    rewrite (run_events_cons locked (WorkerStep tid rnd) _ s1 s2 H2).
    by rewrite !(run_events_cons locked (WorkerStep tid rnd) _ s2 s2 H3).
  - by rewrite Ht2.
Qed.

(** X13: the last line of a worker shows the value the worker itself
    computed last, not the value of its record: after [reset id v] and
    then [kill id], with no tick in between, the two lines printed are
    that of the reset and the last line of the worker, with the value
    the worker had before the reset, whatever [v] is; the record is
    erased. *)
Theorem kill_after_reset_prints_old_value (id v : Z) (s : State) (t : Thread) :
  pool_wf s -> threads s !! id = Some t -> at_position t = Sleeping ->
  is_Some (threadsData s !! id) ->
  exists s', killThread id [] (five_steps id) [] (resetThread id v s) = Done s'
    /\ cout s' = cout s ++ [ThreadReset id v; ThreadFinished id (threadValue t)]
    /\ threadsData s' !! id = None.
Proof.
  intros [Hdist Hwf] Ht Hpos [d Hd].
  destruct (proj1 (Hwf id)) as [Hz Hin]; [by rewrite Ht|].
  destruct (find_handle_elem id (runningThreads s) Hin) as [k Hk].
  pose proof (find_handle_Some _ _ _ Hk) as Hk'.
  unfold resetThread. rewrite Hd.
  set (s0 := print (ThreadReset id v)
               (set_threadsData (<[id := mkThreadData (killed d) v]> (threadsData s)) s)).
  set (s1 := set_threadsData (<[id := mkThreadData true v]> (threadsData s0)) s0).
  destruct (killed_worker_ends false id 0 s1 t (mkThreadData true v))
    as (s2 & Hrun & Hout & Hfin & Hl & Hda & _); [done|done|apply lookup_insert_eq|done|].
  destruct (threads s2 !! id) as [t2|] eqn:Ht2; [|done]. simpl in Hfin.
  eexists. split.
  - unfold killThread. fold s0.
    assert (threadsData s0 !! id = Some (mkThreadData (killed d) v)) as ->
      by apply lookup_insert_eq.
    cbn [value run_events mbind outcome_bind]. fold s1.
    change (runningThreads s1) with (runningThreads s). rewrite Hk.
    unfold join. change (runningThreads s1) with (runningThreads s). rewrite Hk'.
    rewrite (proj2 (Z.eqb_neq id 0) Hz).
    unfold five_steps. rewrite Hrun. cbn [mbind outcome_bind]. rewrite Ht2.
    assert (at_position t2 = Finished) as -> by congruence.
    reflexivity.
  - simpl. rewrite Hout. simpl. rewrite <- app_assoc. split; [done|].
    apply lookup_delete_eq.
Qed.

Lemma kill_after_reset_prints_old_value_witness :
  exists s', killThread 7 [] (five_steps 7) [] (resetThread 7 5 one_worker) = Done s'
    /\ cout s' = cout one_worker ++ [ThreadReset 7 5; ThreadFinished 7 100]
    /\ threadsData s' !! 7 = None.
Proof.
  apply (kill_after_reset_prints_old_value 7 5 one_worker
           (mkThread (Some 100) 100 Sleeping) one_worker_wf eq_refl eq_refl
           (mk_is_Some _ (mkThreadData false 100) eq_refl)).
Defined.
